(** * ScheduleMe: the availability ingestor and the shift-assignment model

    A shallow embedding of [src/app/core/AvailMatrBuilder.py] and
    [src/app/core/solver.py], and the properties of the weekly roster
    model that they build.

    Conventions of the embedding.
    - Python exceptions are a [result]: [Ok v] or [Raise e].
    - Times of day are the exact rationals [Qc].  The source computes
      [hour + minute / 60.0] in binary floating point and compares it
      with the catalog's shift bounds; those bounds are multiples of a
      quarter hour (exactly representable) and a parsed time is a multiple
      of a minute, so rounding never moves a parsed time across a shift
      bound and every comparison of the source agrees with the exact one.
    - Strings are ASCII ([String.string]): [Py.isspace], [Py.strip] and
      [Py.title] are the Python methods on ASCII text, and say nothing
      of names written with other characters.
    - [ast.literal_eval] and the CP-SAT solver are library code: the
      first is a parameter of the ingestor, the second is represented by
      the valuations that satisfy the model handed to it. *)

From Stdlib Require Import ZArith QArith Qround Qcanon Ascii String List Lia.
From stdpp Require Import base option list gmap strings numbers.

Local Open Scope Z_scope.
Set Warnings "-clear-no-such-hyp".


(** ** Exceptions *)

Inductive exn : Type := ValueError | KeyError | TypeError.

Inductive result (A : Type) : Type :=
  | Ok (a : A)
  | Raise (e : exn).
Arguments Ok {A} a.
Arguments Raise {A} e.

Definition rbind {A B : Type} (r : result A) (k : A -> result B) : result B :=
  match r with
  | Ok a => k a
  | Raise e => Raise e
  end.

Global Instance result_ret : MRet result := fun _ a => Ok a.
Global Instance result_bind : MBind result := fun _ _ k r => rbind r k.

(** A [for] loop whose body may raise: the loop stops at the first
    exception. *)
Fixpoint for_each {A S : Type} (body : S -> A -> result S) (st : S)
    (l : list A) : result S :=
  match l with
  | [] => Ok st
  | a :: l' => st' ← body st a; for_each body st' l'
  end.

(** ** The Python string methods the ingestor calls *)

Module Py.

Definition code (c : ascii) : N := N_of_ascii c.

(** [str.isspace] on ASCII: TAB..CR, FS..US and the blank.  Python
    knows further blanks and cased letters outside ASCII; text with
    such characters is outside this embedding. *)
Definition isspace (c : ascii) : bool :=
  ((9 <=? code c) && (code c <=? 13) || (28 <=? code c) && (code c <=? 32))%N.

Definition isupper (c : ascii) : bool := ((65 <=? code c) && (code c <=? 90))%N.
Definition islower (c : ascii) : bool := ((97 <=? code c) && (code c <=? 122))%N.

Definition upper (c : ascii) : ascii :=
  if islower c then ascii_of_N (code c - 32) else c.
Definition lower (c : ascii) : ascii :=
  if isupper c then ascii_of_N (code c + 32) else c.

Fixpoint lstrip (s : string) : string :=
  match s with
  | EmptyString => EmptyString
  | String c s' => if isspace c then lstrip s' else s
  end.

Fixpoint rstrip (s : string) : string :=
  match s with
  | EmptyString => EmptyString
  | String c s' =>
      match rstrip s' with
      | EmptyString => if isspace c then EmptyString else String c EmptyString
      | r => String c r
      end
  end.

(** [s.strip()] *)
Definition strip (s : string) : string := rstrip (lstrip s).

(** [s.title()]: a cased character that follows an uncased one is
    upper-cased, a cased character that follows a cased one is
    lower-cased. *)
Fixpoint title_from (previous_is_cased : bool) (s : string) : string :=
  match s with
  | EmptyString => EmptyString
  | String c s' =>
      if islower c then
        String (if previous_is_cased then c else upper c) (title_from true s')
      else if isupper c then
        String (if previous_is_cased then lower c else c) (title_from true s')
      else String c (title_from false s')
  end.

Definition title (s : string) : string := title_from false s.

(** [s.split("-", 1)] when ["-" in s]; [None] when the separator is
    absent. *)
Fixpoint split_dash (s : string) : option (string * string) :=
  match s with
  | EmptyString => None
  | String c s' =>
      if Ascii.eqb c "-" then Some (EmptyString, s')
      else match split_dash s' with
           | Some (a, b) => Some (String c a, b)
           | None => None
           end
  end.

Definition digit (c : ascii) : option Z :=
  if ((48 <=? code c) && (code c <=? 57))%N
  then Some (Z.of_N (code c) - 48) else None.

(** One numeric field of a [strptime] format.  The library's pattern
    for the field is an alternation "two digits in range, else one
    digit" ([2[0-3]|[0-1]\d|\d] for [%H], [[0-5]\d|\d] for [%M],
    [6[0-1]|[0-5]\d|\d] for [%S]); [hi] is the largest two-digit
    value. *)
Definition field (hi : Z) (s : string) : option (Z * string) :=
  match s with
  | EmptyString => None
  | String c1 s1 =>
      match digit c1 with
      | None => None
      | Some d1 =>
          match s1 with
          | String c2 s2 =>
              match digit c2 with
              | Some d2 =>
                  if 10 * d1 + d2 <=? hi then Some (10 * d1 + d2, s2)
                  else Some (d1, s1)
              | None => Some (d1, s1)
              end
          | EmptyString => Some (d1, s1)
          end
      end
  end.

Definition colon (s : string) : option string :=
  match s with
  | String c s' => if Ascii.eqb c ":" then Some s' else None
  | EmptyString => None
  end.

(** [datetime.strptime(s, "%H:%M:%S")], reduced to the hour and the
    minute that the caller reads.  The whole string must match, and a
    second of 60 or 61, which the pattern lets through, is refused by the
    [datetime] constructor. *)
Definition strptime_HMS (s : string) : result (Z * Z) :=
  match field 23 s with
  | None => Raise ValueError
  | Some (h, s1) =>
      match colon s1 with
      | None => Raise ValueError
      | Some s2 =>
          match field 59 s2 with
          | None => Raise ValueError
          | Some (m, s3) =>
              match colon s3 with
              | None => Raise ValueError
              | Some s4 =>
                  match field 61 s4 with
                  | Some (sec, EmptyString) =>
                      if sec <=? 59 then Ok (h, m) else Raise ValueError
                  | _ => Raise ValueError
                  end
              end
          end
      end
  end.

(** The values [ast.literal_eval] can return, as far as the ingestor
    tells them apart: a string, a value that cannot be iterated (a
    number, [None]), or a sequence of values (a list or a tuple; a set
    or the keys of a dict iterate like one). *)
#[warnings="-register-all"]
Inductive value : Type :=
  | VStr (s : string)
  | VInt (n : Z)
  | VNone
  | VList (items : list value)
  | VTuple (items : list value).

(** [for rng in items]: lists and tuples yield their items, a string
    yields its characters, a number or [None] is not iterable. *)
Definition iterate (v : value) : result (list value) :=
  match v with
  | VList items | VTuple items => Ok items
  | VStr s => Ok ((fun c => VStr (String c EmptyString)) <$> list_ascii_of_string s)
  | VInt _ | VNone => Raise TypeError
  end.

End Py.

(** ** AvailMatrBuilder.py *)

Module AvailMatrBuilder.

(** A time of day in hours, [n / d]. *)
Definition hours (n : Z) (d : positive) : Qc := Q2Qc (n # d).

(** (sid, day_abbr, start_hour_float, end_hour_float, staff_required) *)
Definition Shift : Type := string * string * Qc * Qc * Z.
Definition ShiftId : Type := string * Qc * Qc.

Definition SHIFTS : list Shift :=
  [ ("S1",  "Mon", hours 29 4, hours 9 1,  3);
    ("S2",  "Mon", hours 9 1,  hours 12 1, 4);
    ("S3",  "Mon", hours 12 1, hours 15 1, 4);
    ("S4",  "Mon", hours 15 1, hours 17 1, 4);
    ("S5",  "Mon", hours 17 1, hours 19 1, 3);
    ("S6",  "Tue", hours 29 4, hours 9 1,  3);
    ("S7",  "Tue", hours 9 1,  hours 12 1, 4);
    ("S8",  "Tue", hours 12 1, hours 15 1, 4);
    ("S9",  "Tue", hours 15 1, hours 17 1, 4);
    ("S10", "Tue", hours 17 1, hours 19 1, 3);
    ("S11", "Wed", hours 29 4, hours 9 1,  3);
    ("S12", "Wed", hours 9 1,  hours 12 1, 4);
    ("S13", "Wed", hours 12 1, hours 15 1, 4);
    ("S14", "Wed", hours 15 1, hours 17 1, 4);
    ("S15", "Wed", hours 17 1, hours 19 1, 3);
    ("S16", "Thu", hours 29 4, hours 9 1,  3);
    ("S17", "Thu", hours 9 1,  hours 12 1, 4);
    ("S18", "Thu", hours 12 1, hours 15 1, 4);
    ("S19", "Thu", hours 15 1, hours 17 1, 4);
    ("S20", "Thu", hours 17 1, hours 19 1, 3);
    ("S21", "Fri", hours 29 4, hours 9 1,  3);
    ("S22", "Fri", hours 9 1,  hours 12 1, 4);
    ("S23", "Fri", hours 12 1, hours 15 1, 4);
    ("S24", "Fri", hours 15 1, hours 17 1, 4);
    ("S25", "Sat", hours 10 1, hours 14 1, 2);
    ("S26", "Sun", hours 10 1, hours 14 1, 2) ]%string.

(** [DAY_ABBR_TO_COL[d]]; a day outside the table is a [KeyError]. *)
Definition DAY_ABBR_TO_COL (d : string) : result string :=
  (if String.eqb d "Mon" then Ok "MONDAY"
   else if String.eqb d "Tue" then Ok "TUESDAY"
   else if String.eqb d "Wed" then Ok "WEDNESDAY"
   else if String.eqb d "Thu" then Ok "THURSDAY"
   else if String.eqb d "Fri" then Ok "FRIDAY"
   else if String.eqb d "Sat" then Ok "SATURDAY"
   else if String.eqb d "Sun" then Ok "SUNDAY"
   else Raise KeyError)%string.

Definition _hhmm_to_float (s : string) : result Qc :=
  '(hour, minute) ← Py.strptime_HMS (Py.strip s);
  Ok (Q2Qc (inject_Z hour) + Q2Qc (inject_Z minute) / Q2Qc (inject_Z 60))%Qc.

(** A cell of the table as a row of [df.iterrows()] holds it: missing,
    a string, some other object with its [str()], or an integer that
    the row holds as a float.

    [iterrows()] cuts its rows out of [df.values], one array of one
    dtype.  When every column of the table is numeric that dtype is
    float64 as soon as one column holds a float or a missing value, and
    an integer of an integer column then reads in the row as the float:
    [str(row[c])] is ["1.0"] where [astype(str)] on the column gives
    ["1"].  [CInt text] is such an integer, [text] its decimal text
    (below 10^16 in size, where the float is written with [".0"]).
    Every other object is a [CObj] with the one [str()] it has in the
    row and in its column: a float, a timestamp, and an integer of a
    table that has a column of strings, which keeps its type in the
    row. *)
Inductive cell : Type :=
  | CNaN
  | CStr (s : string)
  | CObj (repr : string)
  | CInt (text : string).

Section Ingest.

(** [ast.literal_eval]; [None] stands for any exception it raises. *)
Variable literal_eval : string -> option Py.value.

(** The loop of [_parse_ranges] over the evaluated items, [out]
    being the list built so far. *)
Fixpoint parse_items (out : list (Qc * Qc)) (items : list Py.value)
    : result (list (Qc * Qc)) :=
  match items with
  | [] => Ok out
  | rng :: rest =>
      match rng with
      | Py.VStr r =>
          match Py.split_dash r with
          | None => parse_items out rest
          | Some (start_s, end_s) =>
              a ← _hhmm_to_float start_s;
              b ← _hhmm_to_float end_s;
              parse_items (out ++ [(a, b)]) rest
          end
      | _ => parse_items out rest
      end
  end.

Definition _parse_ranges (cell_str : cell) : result (list (Qc * Qc)) :=
  match cell_str with
  | CStr s =>
      match literal_eval s with
      | None => Ok []
      | Some items => its ← Py.iterate items; parse_items [] its
      end
  | _ => Ok []
  end.

(** [any(a <= start and end <= b for (a, b) in parsed)] *)
Definition is_available (parsed : list (Qc * Qc)) (start end_ : Qc) : bool :=
  existsb (fun '(a, b) => bool_decide (a <= start)%Qc && bool_decide (end_ <= b)%Qc)
          parsed.

(** The table read from the workbook: its column labels, and each
    row as a map from column label to cell. *)
Record DataFrame : Type := {
  columns : list string;
  rows : list (gmap string cell)
}.

Record InputData : Type := {
  students : list string;
  availability_matrix : gmap string (gmap ShiftId Z);
  shifts : list Shift
}.

Definition name_col : string := "STUDENT NAME".

(** [str(v)] of a cell read from a row. *)
Definition str (c : cell) : string :=
  match c with
  | CNaN => "nan"
  | CStr s => s
  | CObj repr => repr
  | CInt text => (text ++ ".0")%string
  end.

(** The name column holds integers and nothing else: its dtype is
    int64. *)
Definition integer_names (df : DataFrame) : bool :=
  forallb (fun row : gmap string cell =>
             match row !! name_col with
             | Some (CInt _) => true
             | _ => false
             end) (rows df).

(** [str(v)] of a cell of the name column, as [astype(str)] computes it
    on the column.  An integer reads as an integer in a column of
    integers; in a column that also holds a float or a missing value it
    is stored, and reads, as a float. *)
Definition astype_str (df : DataFrame) (c : cell) : string :=
  match c with
  | CInt text => if integer_names df then text else str c
  | _ => str c
  end.

(** [row[name_col]] *)
Definition row_name (row : gmap string cell) : result cell :=
  match row !! name_col with
  | Some c => Ok c
  | None => Raise KeyError
  end.

(** [row.get(col, "")] *)
Definition row_get (row : gmap string cell) (col : string) : cell :=
  default (CStr "") (row !! col).

(** [str(row[name_col]).strip().title()] *)
Definition normalize (c : cell) : string := Py.title (Py.strip (str c)).

(** [df[name_col].dropna().astype(str).str.strip().str.title().tolist()] *)
Definition student_list (df : DataFrame) : list string :=
  omap (fun row => match row !! name_col with
                   | Some CNaN | None => None
                   | Some c => Some (Py.title (Py.strip (astype_str df c)))
                   end) (rows df).

(** [availability_matrix[student][key] = v] *)
Definition set_entry (m : gmap string (gmap ShiftId Z)) (student : string)
    (key : ShiftId) (v : Z) : result (gmap string (gmap ShiftId Z)) :=
  match m !! student with
  | Some inner => Ok (<[student := <[key := v]> inner]> m)
  | None => Raise KeyError
  end.

(** The body of the loop over [SHIFTS] for one row: the day's cell is
    parsed and the entry of the shift is written.  The right-hand side
    is evaluated before the matrix is indexed, so an exception of the
    parser comes first. *)
Definition shift_step (row : gmap string cell) (student : string)
    (m : gmap string (gmap ShiftId Z)) (sh : Shift)
    : result (gmap string (gmap ShiftId Z)) :=
  let '(_, d, start, end_, _) := sh in
  col ← DAY_ABBR_TO_COL d;
  parsed ← _parse_ranges (row_get row col);
  set_entry m student (d, start, end_)
            (if is_available parsed start end_ then 1 else 0).

(** The body of [for _, row in df.iterrows()]. *)
Definition row_step (m : gmap string (gmap ShiftId Z))
    (row : gmap string cell) : result (gmap string (gmap ShiftId Z)) :=
  c ← row_name row;
  for_each (shift_step row (normalize c)) m SHIFTS.

(** [load_input_from_excel], from the table that [pd.read_excel]
    returns. *)
Definition load_input_from_excel (df : DataFrame) : result InputData :=
  if bool_decide (name_col ∈ columns df) then
    let students := student_list df in
    let availability_matrix : gmap string (gmap ShiftId Z) :=
      foldl (fun m s => <[s := ∅]> m) ∅ students in
    availability_matrix ← for_each row_step availability_matrix (rows df);
    Ok {| students := students;
          availability_matrix := availability_matrix;
          shifts := SHIFTS |}
  else Raise ValueError.

End Ingest.

End AvailMatrBuilder.

(** ** solver.py *)

Module solver.

Import AvailMatrBuilder.

(** ---- CONFIG ---- *)
Definition MAX_WEEKLY_HOURS : Z := 20.
Definition ENFORCE_MAX_SHIFTS_PER_DAY : bool := false.
Definition MAX_SHIFTS_PER_DAY : Z := 2.
Definition ENFORCE_MAX_DAILY_HOURS : bool := false.
Definition MAX_DAILY_HOURS : Z := 8.
Definition SCALE : Z := 4.

(** *** The part of the CP-SAT interface that the script uses *)

(** A variable is its index in the model, as in [cp_model]; the
    display names given to the variables play no role and are left
    out. *)
Definition IntVar : Type := nat.

Inductive LinearExpr : Type :=
  | Const (c : Z)
  | Var (v : IntVar)
  | Plus (e1 e2 : LinearExpr)
  | Minus (e1 e2 : LinearExpr)
  | Times (e : LinearExpr) (c : Z).

Inductive Constraint : Type :=
  | Eq (e1 e2 : LinearExpr)
  | Le (e1 e2 : LinearExpr)
  | MaxEquality (target : IntVar) (vars : list IntVar)
  | MinEquality (target : IntVar) (vars : list IntVar).

Record CpModel : Type := {
  variables : list (Z * Z);
  constraints : list Constraint;
  objective : option LinearExpr
}.

Definition empty_model : CpModel :=
  {| variables := []; constraints := []; objective := None |}.

Definition NewIntVar (lb ub : Z) (m : CpModel) : IntVar * CpModel :=
  (length (variables m),
   {| variables := variables m ++ [(lb, ub)];
      constraints := constraints m;
      objective := objective m |}).

Definition NewBoolVar (m : CpModel) : IntVar * CpModel := NewIntVar 0 1 m.

Definition Add (c : Constraint) (m : CpModel) : CpModel :=
  {| variables := variables m;
     constraints := constraints m ++ [c];
     objective := objective m |}.

Definition Minimize (e : LinearExpr) (m : CpModel) : CpModel :=
  {| variables := variables m;
     constraints := constraints m;
     objective := Some e |}.

(** Python's [sum] of a generator of expressions: [0 + e1 + e2 + ...]. *)
Definition sum (es : list LinearExpr) : LinearExpr := foldl Plus (Const 0) es.

(** *** What a solution is *)

Fixpoint eval (val : IntVar -> Z) (e : LinearExpr) : Z :=
  match e with
  | Const c => c
  | Var v => val v
  | Plus e1 e2 => eval val e1 + eval val e2
  | Minus e1 e2 => eval val e1 - eval val e2
  | Times e c => eval val e * c
  end.

Definition holds (val : IntVar -> Z) (c : Constraint) : Prop :=
  match c with
  | Eq e1 e2 => eval val e1 = eval val e2
  | Le e1 e2 => eval val e1 <= eval val e2
  | MaxEquality target vars =>
      val target ∈ (val <$> vars) ∧ Forall (fun v => val v <= val target) vars
  | MinEquality target vars =>
      val target ∈ (val <$> vars) ∧ Forall (fun v => val target <= val v) vars
  end.

(** [val] is a solution of [m]: every variable lies in its domain and
    every constraint holds. *)
Definition feasible (val : IntVar -> Z) (m : CpModel) : Prop :=
  (∀ v lb ub, variables m !! v = Some (lb, ub) → lb <= val v <= ub) ∧
  Forall (holds val) (constraints m).

(** *** Insertion-ordered dictionaries *)

(** [d[k] = v] *)
Fixpoint dict_set {K V : Type} `{EqDecision K} (k : K) (v : V)
    (d : list (K * V)) : list (K * V) :=
  match d with
  | [] => [(k, v)]
  | (k', v') :: d' =>
      if decide (k = k') then (k', v) :: d' else (k', v') :: dict_set k v d'
  end.

(** [d[k]], with [dflt] for a key that is absent. *)
Fixpoint dict_get {K V : Type} `{EqDecision K} (dflt : V) (k : K)
    (d : list (K * V)) : V :=
  match d with
  | [] => dflt
  | (k', v') :: d' => if decide (k = k') then v' else dict_get dflt k d'
  end.

(** [d.setdefault(k, []).append(v)] *)
Fixpoint setdefault_append {K V : Type} `{EqDecision K} (k : K) (v : V)
    (d : list (K * list V)) : list (K * list V) :=
  match d with
  | [] => [(k, [v])]
  | (k', vs) :: d' =>
      if decide (k = k') then (k', vs ++ [v]) :: d'
      else (k', vs) :: setdefault_append k v d'
  end.

(** *** The script *)

(** [round], to the nearest integer and to the even one on a tie. *)
Definition round (q : Qc) : Z :=
  let f := Qfloor q in
  let r := (q - Q2Qc (inject_Z f))%Qc in
  if bool_decide (r < Q2Qc (1 # 2))%Qc then f
  else if bool_decide (Q2Qc (1 # 2) < r)%Qc then f + 1
  else if Z.even f then f else f + 1.

Definition shift_id (sh : Shift) : ShiftId :=
  let '(_, day, start, end_, _) := sh in (day, start, end_).

Definition required (sh : Shift) : Z :=
  let '(_, _, _, _, required) := sh in required.

Definition scaled_length (sid : ShiftId) : Z :=
  let '(_, start, end_) := sid in
  round ((end_ - start) * Q2Qc (inject_Z SCALE))%Qc.

Section Script.

Variable students : list string.
Variable availability_matrix : gmap string (gmap ShiftId Z).
Variable shifts : list Shift.

Definition shift_lengths : gmap ShiftId Z :=
  foldl (fun d sh => <[shift_id sh := scaled_length (shift_id sh)]> d) ∅ shifts.

(** [x[(sid, s)]] and [shift_lengths[sid]]: the keys read are the
    keys written by the loops over the same [shifts] and [students]
    (lemmas [x_hit] and [shift_lengths_hit]), so the lookups are
    total here. *)
Definition length_of (sid : ShiftId) : Z := shift_lengths !!! sid.

(** Decision vars x[(day,start,end), student] in {0,1} *)
Definition new_x (sid : ShiftId) (st : gmap (ShiftId * string) IntVar * CpModel)
    (s : string) : gmap (ShiftId * string) IntVar * CpModel :=
  let '(v, m) := NewBoolVar st.2 in (<[(sid, s) := v]> st.1, m).

Definition decision_vars (m : CpModel) : gmap (ShiftId * string) IntVar * CpModel :=
  foldl (fun st sh => foldl (new_x (shift_id sh)) st students) (∅, m) shifts.

Section Constraints.

Variable x : gmap (ShiftId * string) IntVar.

Definition X (sid : ShiftId) (s : string) : LinearExpr := Var (x !!! (sid, s)).

(** 1) Coverage: exactly required staff per shift *)
Definition coverage (m : CpModel) : CpModel :=
  foldl (fun m sh =>
           Add (Eq (sum ((fun s => X (shift_id sh) s) <$> students))
                   (Const (required sh))) m)
        m shifts.

(** [availability_matrix.get(s, {}).get(sid, 0)] *)
Definition avail (s : string) (sid : ShiftId) : Z :=
  default 0 (default ∅ (availability_matrix !! s) !! sid).

(** 2) Availability: if not available, force 0 *)
Definition availability (m : CpModel) : CpModel :=
  foldl (fun m sh =>
           foldl (fun m s =>
                    if bool_decide (avail s (shift_id sh) = 0)
                    then Add (Eq (X (shift_id sh) s) (Const 0)) m
                    else m)
                 m students)
        m shifts.

Definition total_hours_scaled (s : string) : LinearExpr :=
  sum ((fun sh => Times (X (shift_id sh) s) (length_of (shift_id sh))) <$> shifts).

(** 3) Weekly hour limit *)
Definition weekly_hour_limit (m : CpModel) : CpModel :=
  foldl (fun m s =>
           Add (Le (total_hours_scaled s) (Const (MAX_WEEKLY_HOURS * SCALE))) m)
        m students.

(** 4) Optional: at-most-K shifts per day per student *)
Definition max_shifts_per_day (m : CpModel) : CpModel :=
  if ENFORCE_MAX_SHIFTS_PER_DAY then
    let by_day : list (string * string * list ShiftId) :=
      foldl (fun d sh => setdefault_append ((shift_id sh).1.1, "") (shift_id sh) d)
            [] shifts in
    foldl (fun m s =>
             foldl (fun m '((day, _), shift_ids) =>
                      Add (Le (sum ((fun '(_, st, en) => X (day, st, en) s)
                                      <$> shift_ids))
                              (Const MAX_SHIFTS_PER_DAY)) m)
                   m by_day)
          m students
  else m.

(** 5) Optional: max daily hours per student *)
Definition max_daily_hours (m : CpModel) : CpModel :=
  if ENFORCE_MAX_DAILY_HOURS then
    let by_day : list (string * list ShiftId) :=
      foldl (fun d sh => setdefault_append (shift_id sh).1.1 (shift_id sh) d)
            [] shifts in
    foldl (fun m s =>
             foldl (fun m '(day, sid_list) =>
                      Add (Le (sum ((fun sid => Times (X sid s) (length_of sid))
                                      <$> sid_list))
                              (Const (MAX_DAILY_HOURS * SCALE))) m)
                   m by_day)
          m students
  else m.

(** 6) Fairness objective: minimize (max - min) total hours *)
Definition new_total (st : list (string * IntVar) * CpModel) (s : string)
    : list (string * IntVar) * CpModel :=
  let '(v, m) := NewIntVar 0 (MAX_WEEKLY_HOURS * SCALE) st.2 in
  (dict_set s v st.1, m).

Definition total_hours_vars (m : CpModel) : list (string * IntVar) * CpModel :=
  foldl new_total ([], m) students.

Definition total_hours_eq (total_hours : list (string * IntVar))
    (m : CpModel) : CpModel :=
  foldl (fun m s =>
           Add (Eq (Var (dict_get 0%nat s total_hours))
                   (sum ((fun sh => Times (X (shift_id sh) s)
                                          (length_of (shift_id sh))) <$> shifts))) m)
        m students.

End Constraints.

(** The module-level state once the model is built. *)
Record Built : Type := {
  x : gmap (ShiftId * string) IntVar;
  total_hours : list (string * IntVar);
  max_h : IntVar;
  min_h : IntVar;
  model : CpModel
}.

Definition build : Built :=
  let '(x, m) := decision_vars empty_model in
  let m := coverage x m in
  let m := availability x m in
  let m := weekly_hour_limit x m in
  let m := max_shifts_per_day x m in
  let m := max_daily_hours x m in
  let '(total_hours, m) := total_hours_vars m in
  let m := total_hours_eq x total_hours m in
  let '(max_h, m) := NewIntVar 0 (MAX_WEEKLY_HOURS * SCALE) m in
  let '(min_h, m) := NewIntVar 0 (MAX_WEEKLY_HOURS * SCALE) m in
  let m := Add (MaxEquality max_h total_hours.*2) m in
  let m := Add (MinEquality min_h total_hours.*2) m in
  let m := Minimize (Minus (Var max_h) (Var min_h)) m in
  {| x := x; total_hours := total_hours; max_h := max_h; min_h := min_h;
     model := m |}.

(** ---- Solve / Report ---- *)






End Script.

(** The script from its first line to the model: the input is loaded
    and its three fields feed the construction. *)
Definition script (literal_eval : string -> option Py.value) (df : DataFrame)
    : result Built :=
  data ← load_input_from_excel literal_eval df;
  Ok (build (students data) (availability_matrix data) (shifts data)).

End solver.

(** ** Auxiliary definitions used to state and test the properties *)

Module Aux.

Import AvailMatrBuilder solver.

(** *** A reading of [ast.literal_eval] on flat lists of strings

    [literal_eval] below agrees with [ast.literal_eval] on the cell
    texts of the examples in this file: the empty text (a syntax
    error) and a bracketed, comma-separated list of quoted strings
    free of escapes.  It is only ever applied to such texts; the
    general statements take the evaluator as a parameter. *)

Definition is_quote (c : ascii) : bool := Ascii.eqb c "'" || Ascii.eqb c "034".

(** The body of a string literal up to the closing quote [q]. *)
Fixpoint literal_body (q : ascii) (s : string) : option (string * string) :=
  match s with
  | EmptyString => None
  | String c s' =>
      if Ascii.eqb c q then Some (EmptyString, s')
      else if Ascii.eqb c "\" || Ascii.eqb c "010" then None
      else match literal_body q s' with
           | Some (body, rest) => Some (String c body, rest)
           | None => None
           end
  end.

Fixpoint literal_items (fuel : nat) (s : string) : option (list Py.value) :=
  match fuel with
  | O => None
  | S fuel' =>
      match Py.lstrip s with
      | String q s1 =>
          if is_quote q then
            match literal_body q s1 with
            | Some (body, rest) =>
                match Py.lstrip rest with
                | String c rest' =>
                    if Ascii.eqb c "," then
                      cons (Py.VStr body) <$> literal_items fuel' rest'
                    else if Ascii.eqb c "]" then
                      match Py.lstrip rest' with
                      | EmptyString => Some [Py.VStr body]
                      | _ => None
                      end
                    else None
                | EmptyString => None
                end
            | None => None
            end
          else None
      | EmptyString => None
      end
  end.

Definition literal_eval (s : string) : option Py.value :=
  match Py.lstrip s with
  | String c s1 =>
      if Ascii.eqb c "[" then
        match Py.lstrip s1 with
        | String c' s2 =>
            if Ascii.eqb c' "]" then
              match Py.lstrip s2 with
              | EmptyString => Some (Py.VList [])
              | _ => None
              end
            else Py.VList <$> literal_items (String.length s1) s1
        | EmptyString => None
        end
      else None
  | EmptyString => None
  end.

(** *** Predicates on cells and tables *)

Definition is_ok {A : Type} (r : result A) : bool :=
  match r with Ok _ => true | Raise _ => false end.

(** An evaluated item that is not a string, or has no ["-"]. *)
Definition lacks_separator (v : Py.value) : bool :=
  match v with
  | Py.VStr r => match Py.split_dash r with None => true | Some _ => false end
  | _ => true
  end.

(** An evaluated item that is a well-formed range: a string with a
    separator and a time of day on either side of it. *)
Definition well_formed_range (v : Py.value) : bool :=
  match v with
  | Py.VStr r =>
      match Py.split_dash r with
      | Some (a, b) => is_ok (_hhmm_to_float a) && is_ok (_hhmm_to_float b)
      | None => false
      end
  | _ => false
  end.

(** A cell whose content is not a string, does not evaluate, or
    evaluates to items none of which has a separator. *)
Definition without_ranges (literal_eval : string -> option Py.value) (c : cell) : bool :=
  match c with
  | CStr s =>
      match literal_eval s with
      | None => true
      | Some v =>
          match Py.iterate v with
          | Ok its => forallb lacks_separator its
          | Raise _ => false
          end
      end
  | _ => true
  end.

(** Every row of the table has exactly the table's columns. *)
Definition frame_ok (df : DataFrame) : bool :=
  forallb (fun row : gmap string cell =>
             bool_decide (dom row = (list_to_set (columns df) : gset string)))
          (rows df).

(** The row carries a name. *)
Definition has_name (row : gmap string cell) : bool :=
  match row !! name_col with
  | Some CNaN | None => false
  | Some _ => true
  end.

Definition named_rows (df : DataFrame) : list (gmap string cell) :=
  List.filter has_name (rows df).

(** The name under which the student list holds a row. *)
Definition listed_name (df : DataFrame) (row : gmap string cell) : string :=
  match row !! name_col with
  | Some c => Py.title (Py.strip (astype_str df c))
  | None => ""
  end.

(** *** Example tables *)

(** Two rows that spell one name differently. *)
Definition two_spellings : DataFrame :=
  {| columns := [name_col; "MONDAY"%string];
     rows := [ {[ name_col := CStr " alice"; "MONDAY"%string := CStr "[]" ]};
               {[ name_col := CStr "ALICE "; "MONDAY"%string := CStr "[]" ]} ] |}.

(** A table with a Monday column and no other weekday. *)
Definition no_tuesday : DataFrame :=
  {| columns := [name_col; "MONDAY"%string];
     rows := [ {[ name_col := CStr "bob";
                  "MONDAY"%string := CStr "['07:00:00 - 12:00:00']" ]} ] |}.

Definition day_of (sh : Shift) : string := (shift_id sh).1.1.

(** *** Sums and loads *)

Fixpoint Zsum (l : list Z) : Z :=
  match l with
  | [] => 0
  | z :: l' => z + Zsum l'
  end.

(** The ticks a person works under the values [val]. *)
Definition scaled_load (shifts : list Shift) (x : gmap (ShiftId * string) IntVar)
    (val : IntVar -> Z) (s : string) : Z :=
  Zsum ((fun sh => val (x !!! (shift_id sh, s)) * scaled_length (shift_id sh)) <$> shifts).

(** The person-shift ticks the catalog asks for. *)
Definition required_ticks (shifts : list Shift) : Z :=
  Zsum ((fun sh => required sh * scaled_length (shift_id sh)) <$> shifts).

(** The people the report lists for a shift. *)
Definition assigned (students : list string) (x : gmap (ShiftId * string) IntVar)
    (val : IntVar -> Z) (sh : Shift) : list string :=
  filter (fun s => val (x !!! (shift_id sh, s)) = 1) students.


(** [m] with the constraints [cs] added at the end. *)
Definition extend (m : CpModel) (cs : list Constraint) : CpModel :=
  {| variables := variables m;
     constraints := constraints m ++ cs;
     objective := objective m |}.

(** Every variable that [x] names is a Boolean variable of [m]. *)
Definition all_bool (st : gmap (ShiftId * string) IntVar * CpModel) : Prop :=
  ∀ k v, st.1 !! k = Some v → variables st.2 !! v = Some (0, 1).

(** *** A small instance: one Monday shift for one person, Ana free
    and Ben not *)

Definition two_people : list string := ["Ana"%string; "Ben"%string].

Definition early_shift : Shift :=
  ("S1"%string, "Mon"%string, hours 29 4, hours 9 1, 1).

Definition ana_free : gmap string (gmap ShiftId Z) :=
  {[ "Ana"%string := {[ ("Mon"%string, hours 29 4, hours 9 1) := 1 ]} ]}.

(** Ana works the shift: x_Ana = 1, x_Ben = 0, the loads are 7 and 0
    ticks, the largest load 7 and the smallest 0. *)
Definition ana_works (v : IntVar) : Z :=
  match v with
  | 0%nat => 1
  | 2%nat => 7
  | 4%nat => 7
  | _ => 0
  end.

(** *** A checker for solutions *)

Definition holdsb (val : IntVar -> Z) (c : Constraint) : bool :=
  match c with
  | Eq e1 e2 => bool_decide (eval val e1 = eval val e2)
  | Le e1 e2 => bool_decide (eval val e1 <= eval val e2)
  | MaxEquality target vars =>
      existsb (fun v => bool_decide (val target = val v)) vars
      && forallb (fun v => bool_decide (val v <= val target)) vars
  | MinEquality target vars =>
      existsb (fun v => bool_decide (val target = val v)) vars
      && forallb (fun v => bool_decide (val target <= val v)) vars
  end.

Definition feasibleb (val : IntVar -> Z) (m : CpModel) : bool :=
  forallb (fun '(v, (lb, ub)) => bool_decide (lb <= val v <= ub))
          (imap (fun v d => (v, d)) (variables m))
  && forallb (holdsb val) (constraints m).

End Aux.

(** ** Further auxiliary definitions *)

Module More.

Import AvailMatrBuilder solver Aux.

(** An evaluated item with a separator whose times do not parse: the
    kind of item on which [_parse_ranges] raises. *)
Definition bad_range (v : Py.value) : bool :=
  negb (lacks_separator v) && negb (well_formed_range v).

(** The cells under the seven weekday columns of a row all parse. *)
Definition day_cells_parse (literal_eval : string -> option Py.value)
    (row : gmap string cell) : bool :=
  forallb (fun sh : Shift =>
             match DAY_ABBR_TO_COL (day_of sh) with
             | Ok col => is_ok (_parse_ranges literal_eval (row_get row col))
             | Raise _ => false
             end) SHIFTS.

(** The name of the row is one of the listed people. *)
Definition name_listed (df : DataFrame) (row : gmap string cell) : bool :=
  match row !! name_col with
  | Some c => bool_decide (normalize c ∈ student_list df)
  | None => false
  end.

(** The cells of a row under the weekday columns that the table has
    all parse. *)
Definition present_day_cells_parse (literal_eval : string -> option Py.value)
    (df : DataFrame) (row : gmap string cell) : bool :=
  forallb (fun sh : Shift =>
             match DAY_ABBR_TO_COL (day_of sh) with
             | Ok col => negb (bool_decide (col ∈ columns df))
                         || is_ok (_parse_ranges literal_eval (row_get row col))
             | Raise _ => false
             end) SHIFTS.

(** Nothing but a missing weekday column is unusual about the table:
    the name of every row is a listed one and the weekday cells that
    the table has parse. *)
Definition rows_fit (literal_eval : string -> option Py.value) (df : DataFrame) : bool :=
  forallb (fun row => name_listed df row && present_day_cells_parse literal_eval df row)
          (rows df).

(** The text is written in ASCII. *)
Definition is_ascii (s : string) : bool :=
  forallb (fun c => (Py.code c <? 128)%N) (list_ascii_of_string s).

(** The entry that a row gives a shift: 1 when one of the day's
    intervals contains the shift, 0 otherwise. *)
Definition row_entry (literal_eval : string -> option Py.value)
    (row : gmap string cell) (sh : Shift) : result Z :=
  let '(_, d, start, end_, _) := sh in
  col ← DAY_ABBR_TO_COL d;
  parsed ← _parse_ranges literal_eval (row_get row col);
  Ok (if is_available parsed start end_ then 1 else 0).

(** The people whose availability entry for a shift is not 0. *)
Definition available (students : list string)
    (availability_matrix : gmap string (gmap ShiftId Z)) (sh : Shift) : list string :=
  filter (fun s => avail availability_matrix s (shift_id sh) ≠ 0) students.

(** The keys of [x] name variables declared so far, each key its own. *)
Definition fresh_vars (st : gmap (ShiftId * string) IntVar * CpModel) : Prop :=
  (∀ k v, st.1 !! k = Some v → (v < length (variables st.2))%nat)
  ∧ (∀ k1 k2 v, st.1 !! k1 = Some v → st.1 !! k2 = Some v → k1 = k2).

(** *** Interval strings in the documented form *)

(** The character of a decimal digit. *)
Definition digit_char (k : Z) : ascii := ascii_of_N (Z.to_N k + 48).

Definition two_digits (n : Z) : string :=
  String (digit_char (n / 10)) (String (digit_char (n mod 10)) EmptyString).

(** A time written "HH:MM:SS". *)
Definition hhmmss (h m s : Z) : string :=
  (two_digits h ++ ":" ++ two_digits m ++ ":" ++ two_digits s)%string.

(** A range written "HH:MM:SS - HH:MM:SS", as in the docstring of
    [_parse_ranges]. *)
Definition range_text (h1 m1 s1 h2 m2 s2 : Z) : string :=
  (hhmmss h1 m1 s1 ++ " - " ++ hhmmss h2 m2 s2)%string.

(** The time of day [h:m] in hours. *)
Definition clock (h m : Z) : Qc := Q2Qc ((60 * h + m) # 60).

Definition reads_as (t : string) (h m : Z) : bool :=
  match _hhmm_to_float t with
  | Ok q => bool_decide (q = clock h m)
  | Raise _ => false
  end.

Definition no_dash (t : string) : bool :=
  forallb (fun c => negb (Ascii.eqb c "-")) (list_ascii_of_string t).

(** The text of a time is read back, with a blank before or after it,
    and holds no separator. *)
Definition time_ok (h m s : Z) : bool :=
  reads_as (hhmmss h m s ++ " ") h m && reads_as (" " ++ hhmmss h m s) h m
  && no_dash (hhmmss h m s ++ " ").

(** *** Example inputs *)

(** A row without a name, after a named one. *)
Definition nameless_row : DataFrame :=
  {| columns := [name_col; "MONDAY"%string];
     rows := [ {[ name_col := CStr "bob"; "MONDAY"%string := CStr "[]" ]};
               {[ name_col := CNaN; "MONDAY"%string := CStr "[]" ]} ] |}.

(** Bob twice: free on Monday morning in the first row, not at all in
    the second. *)
Definition bob_twice : DataFrame :=
  {| columns := [name_col; "MONDAY"%string];
     rows := [ {[ name_col := CStr "bob";
                  "MONDAY"%string := CStr "['07:00:00 - 12:00:00']" ]};
               {[ name_col := CStr " Bob";
                  "MONDAY"%string := CStr "[]" ]} ] |}.

(** A table of fourteen people, each free from 0:00 to 23:00 on every
    day of the week. *)
Definition free_all_week (name : string) : gmap string cell :=
  list_to_map
    ((name_col, CStr name)
     :: ((fun day : string => (day, CStr "['00:00:00 - 23:00:00']"))
           <$> ["MONDAY"; "TUESDAY"; "WEDNESDAY"; "THURSDAY"; "FRIDAY"; "SATURDAY";
                "SUNDAY"]%string)).

Definition fourteen_people : DataFrame :=
  {| columns := [name_col; "MONDAY"; "TUESDAY"; "WEDNESDAY"; "THURSDAY"; "FRIDAY";
                 "SATURDAY"; "SUNDAY"]%string;
     rows := free_all_week
               <$> ["Ann"; "Ben"; "Cal"; "Dee"; "Eli"; "Fay"; "Gus";
                    "Hal"; "Ida"; "Jon"; "Kim"; "Lee"; "Max"; "Nia"]%string |}.

(** What the script builds from that table. *)
Definition fourteen_people_built : Built :=
  match script literal_eval fourteen_people with
  | Ok built => built
  | Raise _ => build [] ∅ []
  end.

(** A roster for the fourteen: the values of the 26 x 14 assignment
    variables shift by shift, then the fourteen loads, the largest load
    and the smallest. *)
Definition fourteen_people_roster (v : IntVar) : Z :=
  nth v
    [1; 1; 1; 0; 0; 0; 0; 0; 0; 0; 0; 0; 0; 0;
     0; 0; 0; 1; 1; 1; 1; 0; 0; 0; 0; 0; 0; 0;
     0; 0; 0; 0; 0; 0; 0; 1; 1; 1; 1; 0; 0; 0;
     1; 0; 0; 0; 0; 0; 0; 0; 0; 0; 0; 1; 1; 1;
     0; 1; 1; 0; 0; 0; 0; 0; 0; 0; 0; 1; 0; 0;
     0; 0; 0; 1; 0; 0; 0; 0; 0; 0; 0; 0; 1; 1;
     0; 0; 0; 0; 1; 1; 1; 1; 0; 0; 0; 0; 0; 0;
     1; 0; 0; 0; 0; 0; 0; 0; 1; 1; 1; 0; 0; 0;
     0; 1; 1; 0; 0; 0; 0; 0; 0; 0; 0; 0; 1; 1;
     0; 1; 0; 1; 0; 0; 0; 0; 0; 0; 0; 1; 0; 0;
     0; 0; 1; 0; 0; 0; 0; 0; 0; 0; 0; 0; 1; 1;
     0; 0; 0; 0; 1; 1; 1; 1; 0; 0; 0; 0; 0; 0;
     0; 0; 0; 0; 0; 0; 0; 0; 1; 1; 1; 1; 0; 0;
     1; 0; 1; 1; 0; 0; 0; 0; 0; 0; 0; 0; 1; 0;
     1; 1; 0; 0; 0; 0; 0; 0; 0; 0; 0; 0; 0; 1;
     0; 0; 0; 1; 1; 1; 0; 0; 0; 0; 0; 0; 0; 0;
     0; 0; 0; 0; 0; 0; 1; 1; 1; 1; 0; 0; 0; 0;
     0; 0; 1; 0; 0; 0; 0; 0; 0; 0; 1; 1; 1; 0;
     1; 1; 0; 1; 0; 0; 0; 0; 0; 0; 0; 0; 0; 1;
     0; 0; 0; 0; 1; 1; 0; 0; 0; 0; 0; 0; 0; 1;
     0; 1; 0; 0; 0; 0; 1; 1; 0; 0; 0; 0; 0; 0;
     0; 0; 0; 0; 0; 0; 0; 0; 1; 1; 1; 1; 0; 0;
     1; 0; 1; 1; 0; 0; 0; 0; 0; 0; 0; 0; 1; 0;
     0; 1; 0; 0; 1; 1; 0; 0; 0; 0; 0; 0; 0; 1;
     0; 0; 0; 0; 0; 0; 1; 1; 0; 0; 0; 0; 0; 0;
     0; 0; 0; 0; 1; 1; 0; 0; 0; 0; 0; 0; 0; 0;
     63; 62; 62; 62; 75; 75; 71; 71; 60; 60; 60; 60; 62; 62;
     75; 60]
    0.






End More.

(** * Properties of the ingestor *)

Module IngestProps.

Import AvailMatrBuilder Aux.

Lemma rbind_ok {A B : Type} (r : result A) (k : A -> result B) (b : B) :
  (a ← r; k a) = Ok b ↔ ∃ a, r = Ok a ∧ k a = Ok b.
Proof.
  destruct r as [a|e]; simpl; split.
  - eauto.
  - intros (a' & [= <-] & Hk). exact Hk.
  - discriminate.
  - intros (a' & [=] & _).
Qed.

Lemma is_ok_true {A : Type} (r : result A) : is_ok r = true ↔ ∃ a, r = Ok a.
Proof.
  destruct r; simpl; split; eauto; try discriminate. intros [? [=]].
Qed.

(** The list built so far only ever grows at its end. *)
Lemma parse_items_acc (out : list (Qc * Qc)) (items : list Py.value) :
  parse_items out items = (l ← parse_items [] items; Ok (out ++ l)).
Proof.
  revert out. induction items as [|rng rest IH]; intros out.
  - simpl. by rewrite app_nil_r.
  - simpl. destruct rng as [r| | | |]; try apply IH.
    destruct (Py.split_dash r) as [[start_s end_s]|]; [|apply IH].
    destruct (_hhmm_to_float start_s) as [a|]; [|done].
    destruct (_hhmm_to_float end_s) as [b|]; [|done].
    simpl. rewrite (IH (out ++ [(a, b)])), (IH [(a, b)]).
    destruct (parse_items [] rest); simpl; [|done].
    by rewrite <- app_assoc.
Qed.

Lemma is_available_iff (parsed : list (Qc * Qc)) (start end_ : Qc) :
  is_available parsed start end_ = true ↔
  ∃ a b, (a, b) ∈ parsed ∧ (a <= start)%Qc ∧ (end_ <= b)%Qc.
Proof.
  unfold is_available. rewrite existsb_exists. split.
  - intros ([a b] & Hin & Hab). apply andb_true_iff in Hab as [Ha Hb].
    exists a, b. rewrite list_elem_of_In.
    split; [done|]. split; by eapply bool_decide_eq_true_1.
  - intros (a & b & Hin & Ha & Hb). exists (a, b).
    rewrite <- list_elem_of_In. split; [done|].
    apply andb_true_iff. split; by apply bool_decide_eq_true_2.
Qed.

(** One pass of the loop over the shifts: the entry stored for a shift
    [start, end_) of day [d] is 1 or 0, and it is 1 exactly when one
    single parsed interval (a, b) of that day's cell has a <= start and
    end_ <= b. *)
Lemma shift_step_stores_containment
    (literal_eval : string -> option Py.value)
    (row : gmap string cell) (student : string)
    (m : gmap string (gmap ShiftId Z)) (inner : gmap ShiftId Z)
    (label d col : string) (start end_ : Qc) (req : Z)
    (parsed : list (Qc * Qc)) :
  DAY_ABBR_TO_COL d = Ok col →
  _parse_ranges literal_eval (row_get row col) = Ok parsed →
  m !! student = Some inner →
  ∃ v : Z,
    shift_step literal_eval row student m (label, d, start, end_, req)
      = Ok (<[student := <[(d, start, end_) := v]> inner]> m)
    ∧ (v = 1 ∨ v = 0)
    ∧ (v = 1 ↔ ∃ a b, (a, b) ∈ parsed ∧ (a <= start)%Qc ∧ (end_ <= b)%Qc)
    ∧ ((∀ a b, (a, b) ∈ parsed → ¬ ((a <= start)%Qc ∧ (end_ <= b)%Qc)) → v = 0).
Proof.
  intros Hcol Hparsed Hm.
  exists (if is_available parsed start end_ then 1 else 0).
  unfold shift_step. rewrite Hcol. simpl. rewrite Hparsed. simpl.
  unfold set_entry. rewrite Hm. split; [done|].
  pose proof (is_available_iff parsed start end_) as Hiff.
  destruct (is_available parsed start end_).
  - split; [by left|]. split.
    + split; [intros _; by apply Hiff | done].
    + intros Hno. destruct (proj1 Hiff eq_refl) as (a & b & Hin & Hab).
      by destruct (Hno a b Hin).
  - split; [by right|]. split; [|done].
    split; [done|]. intros Hex. apply Hiff in Hex. discriminate.
Qed.

(** *** Cells that do not parse *)

Lemma parse_items_without_separator (out : list (Qc * Qc)) (items : list Py.value) :
  forallb lacks_separator items = true → parse_items out items = Ok out.
Proof.
  revert out. induction items as [|rng rest IH]; intros out Hall; [done|].
  simpl in Hall. apply andb_true_iff in Hall as [Hrng Hrest]. simpl.
  destruct rng as [r| | | |]; try by apply IH.
  simpl in Hrng. destruct (Py.split_dash r); [discriminate|]. by apply IH.
Qed.

(** C6 (as the code has it).  A cell that is not a string, or whose
    text does not evaluate as a literal, or whose evaluated items are
    all non-strings or strings without the separator, parses to the
    empty interval list, and no exception is raised; with the empty list
    no shift is available. *)
Theorem cell_without_ranges_parses_to_empty
    (literal_eval : string -> option Py.value) (c : cell) :
  without_ranges literal_eval c = true →
  _parse_ranges literal_eval c = Ok []
  ∧ ∀ start end_, is_available [] start end_ = false.
Proof.
  intros Hc. split; [|done]. revert Hc.
  unfold without_ranges, _parse_ranges.
  destruct c as [|s|repr|text]; try done.
  destruct (literal_eval s) as [v|]; [|done].
  destruct (Py.iterate v) as [its|e]; [|discriminate].
  simpl. apply parse_items_without_separator.
Qed.

(** A list of two items, neither with a separator. *)
Lemma cell_without_ranges_parses_to_empty_witness :
  _parse_ranges literal_eval (CStr "['noon', 'evening']") = Ok []
  ∧ ∀ start end_, is_available [] start end_ = false.
Proof.
  apply (cell_without_ranges_parses_to_empty literal_eval
           (CStr "['noon', 'evening']")).
  reflexivity.
Defined.

(** C6, refuted as stated.  A cell whose list evaluates but holds a
    malformed range does not always parse to the empty list, and can
    abort the run: next to a well-formed range, an item without a
    separator leaves the other interval in place; a range whose times
    are not in HH:MM:SS form raises [ValueError] out of
    [_parse_ranges], and [load_input_from_excel] stops with it. *)
Lemma malformed_range_keeps_or_raises :
  (forallb well_formed_range [Py.VStr "09:00:00 - 17:00:00"; Py.VStr "9 to 5"] = false
   ∧ _parse_ranges literal_eval (CStr "['09:00:00 - 17:00:00', '9 to 5']")
     = Ok [(hours 9 1, hours 17 1)])
  ∧ (well_formed_range (Py.VStr "7am - 9am") = false
     ∧ _parse_ranges literal_eval (CStr "['7am - 9am']") = Raise ValueError
     ∧ load_input_from_excel literal_eval
         {| columns := [name_col; "MONDAY"%string];
            rows := [ {[ name_col := CStr "Alice";
                         "MONDAY"%string := CStr "['7am - 9am']" ]} ] |}
       = Raise ValueError).
Proof. repeat split; reflexivity. Qed.

(** *** Items without a separator *)

Lemma parse_items_skip (out : list (Qc * Qc)) (before after : list Py.value)
    (rng : Py.value) :
  lacks_separator rng = true →
  parse_items out (before ++ rng :: after) = parse_items out (before ++ after).
Proof.
  intros Hrng. revert out.
  induction before as [|item before IH]; intros out; simpl.
  - destruct rng as [r| | | |]; try done.
    simpl in Hrng. by destruct (Py.split_dash r).
  - destruct item as [r| | | |]; try apply IH.
    destruct (Py.split_dash r) as [[start_s end_s]|]; [|apply IH].
    destruct (_hhmm_to_float start_s) as [a|]; [|done].
    destruct (_hhmm_to_float end_s) as [b|]; [|done].
    simpl. apply IH.
Qed.

(** C7 (as the code has it).  An item of the evaluated list that has
    no ["-"] is skipped: the cell parses as the same list without that
    item, so the other items keep contributing their intervals. *)
Theorem item_without_separator_is_skipped
    (literal_eval : string -> option Py.value) (s : string)
    (before after : list Py.value) (r : string) :
  literal_eval s = Some (Py.VList (before ++ Py.VStr r :: after)) →
  Py.split_dash r = None →
  _parse_ranges literal_eval (CStr s) = parse_items [] (before ++ after).
Proof.
  intros Heval Hr. unfold _parse_ranges. rewrite Heval. simpl.
  apply parse_items_skip. simpl. by rewrite Hr.
Qed.

(** A list of three items, the middle one without a separator. *)
Lemma item_without_separator_is_skipped_witness :
  _parse_ranges literal_eval (CStr "['07:15:00 - 09:00:00', 'lunch', '12:00:00 - 15:00:00']")
  = parse_items [] ([Py.VStr "07:15:00 - 09:00:00"] ++ [Py.VStr "12:00:00 - 15:00:00"]).
Proof.
  apply (item_without_separator_is_skipped literal_eval _
           [Py.VStr "07:15:00 - 09:00:00"] [Py.VStr "12:00:00 - 15:00:00"] "lunch");
    reflexivity.
Defined.

(** C7, refuted as stated.  The list of this cell has an item without
    the separator, and the day's interval set is not empty: the
    well-formed item still yields its interval, which makes the
    catalog's 9:00 to 12:00 shift available. *)
Lemma item_without_separator_day_not_empty :
  Py.split_dash "noon" = None
  ∧ _parse_ranges literal_eval (CStr "['07:00:00 - 12:00:00', 'noon']")
    = Ok [(hours 7 1, hours 12 1)]
  ∧ _parse_ranges literal_eval (CStr "['07:00:00 - 12:00:00', 'noon']") ≠ Ok []
  ∧ is_available [(hours 7 1, hours 12 1)] (hours 9 1) (hours 12 1) = true.
Proof. repeat split; try reflexivity. discriminate. Qed.

(** *** Names *)

Lemma for_each_ok_inv {A S : Type} (P : S → Prop) (body : S → A → result S)
    (l : list A) (st st' : S) :
  (∀ a s s', a ∈ l → P s → body s a = Ok s' → P s') →
  P st → for_each body st l = Ok st' → P st'.
Proof.
  revert st. induction l as [|a l IH]; intros st Hbody HP Hrun; simpl in Hrun.
  - by injection Hrun as <-.
  - apply rbind_ok in Hrun as (s1 & H1 & Hrest).
    apply (IH s1); [|by eapply Hbody; [left|..]|done].
    intros a' s s' Ha'. apply Hbody. by right.
Qed.

Lemma for_each_cons {A S : Type} (body : S → A → result S) (st : S) (a : A)
    (l : list A) :
  for_each body st (a :: l) = (st' ← body st a; for_each body st' l).
Proof. reflexivity. Qed.

Lemma set_entry_dom (m m' : gmap string (gmap ShiftId Z)) (student : string)
    (key : ShiftId) (v : Z) :
  set_entry m student key v = Ok m' → dom m' = dom m.
Proof.
  unfold set_entry. destruct (m !! student) as [inner|] eqn:Hm; [|done].
  intros [= <-]. rewrite dom_insert_L.
  apply (elem_of_dom_2 (D := gset string)) in Hm. set_solver.
Qed.

Lemma shift_step_dom (literal_eval : string -> option Py.value)
    (row : gmap string cell) (student : string)
    (m m' : gmap string (gmap ShiftId Z)) (sh : Shift) :
  shift_step literal_eval row student m sh = Ok m' → dom m' = dom m.
Proof.
  destruct sh as [[[[label d] start] end_] req]. unfold shift_step.
  intros H. apply rbind_ok in H as (col & _ & H).
  apply rbind_ok in H as (parsed & _ & H). by eapply set_entry_dom.
Qed.

Lemma row_step_dom (literal_eval : string -> option Py.value)
    (m m' : gmap string (gmap ShiftId Z)) (row : gmap string cell) :
  row_step literal_eval m row = Ok m' → dom m' = dom m.
Proof.
  unfold row_step. intros H. apply rbind_ok in H as (c & _ & H).
  revert H. apply (for_each_ok_inv (λ m0, dom m0 = dom m)); [|done].
  intros sh s s' _ Hs Hstep. rewrite <- Hs. by eapply shift_step_dom.
Qed.

Lemma matrix_init_dom (names : list string) (m : gmap string (gmap ShiftId Z)) :
  dom (foldl (λ m s, <[s := ∅]> m) m names) = dom m ∪ list_to_set names.
Proof.
  revert m. induction names as [|s names IH]; intros m; simpl.
  - set_solver.
  - rewrite IH, dom_insert_L. set_solver.
Qed.

Lemma load_ok_inv (literal_eval : string -> option Py.value) (df : DataFrame)
    (data : InputData) :
  load_input_from_excel literal_eval df = Ok data →
  name_col ∈ columns df
  ∧ students data = student_list df
  ∧ shifts data = SHIFTS
  ∧ for_each (row_step literal_eval)
             (foldl (λ m s, <[s := ∅]> m) ∅ (student_list df)) (rows df)
    = Ok (availability_matrix data).
Proof.
  unfold load_input_from_excel. case_bool_decide as Hcol; [|done].
  intros H. apply rbind_ok in H as (m & Hm & [= <-]). by simpl.
Qed.

Lemma elem_of_student_list (df : DataFrame) (name : string) :
  name ∈ student_list df ↔
  ∃ row c, row ∈ rows df ∧ row !! name_col = Some c ∧ c ≠ CNaN
           ∧ name = Py.title (Py.strip (astype_str df c)).
Proof.
  unfold student_list. rewrite list_elem_of_omap. split.
  - intros (row & Hrow & Hname). exists row.
    destruct (row !! name_col) as [c|]; [|done]. exists c.
    destruct c; try done; injection Hname as <-; done.
  - intros (row & c & Hrow & Hc & Hnan & ->). exists row. split; [done|].
    rewrite Hc. by destruct c.
Qed.

(** The student list, row by row. *)
Lemma student_list_named_rows (df : DataFrame) :
  student_list df = listed_name df <$> named_rows df.
Proof.
  unfold student_list, named_rows, listed_name, has_name.
  induction (rows df) as [|row l IH]; [done|]. simpl.
  destruct (row !! name_col) as [c|] eqn:Hc; [|exact IH].
  destruct c; [exact IH|..]; simpl; rewrite Hc; f_equal; exact IH.
Qed.

(** C8 (as the code has it).  The student list is the list of the
    rows that have a name, in the order of the table, each under the
    trimmed, title-cased text of its name cell: one entry per named
    row, so rows whose names normalize alike appear in it once each.
    The availability matrix has one key per distinct name of that
    list. *)
Theorem names_normalized_matrix_keyed_by_name
    (literal_eval : string -> option Py.value) (df : DataFrame) (data : InputData) :
  load_input_from_excel literal_eval df = Ok data →
  students data = listed_name df <$> named_rows df
  ∧ (∀ name, name ∈ students data ↔
             ∃ row c, row ∈ rows df ∧ row !! name_col = Some c ∧ c ≠ CNaN
                      ∧ name = Py.title (Py.strip (astype_str df c)))
  ∧ dom (availability_matrix data) = list_to_set (students data)
  ∧ length (students data) = length (named_rows df).
Proof.
  intros Hload. apply load_ok_inv in Hload as (_ & Hst & _ & Hrun).
  rewrite Hst. split; [apply student_list_named_rows|].
  split; [apply elem_of_student_list|].
  split; [|by rewrite student_list_named_rows, length_fmap].
  revert Hrun.
  apply (for_each_ok_inv (λ m, dom m = list_to_set (student_list df))).
  - intros row s s' _ Hs Hstep. rewrite <- Hs. by eapply row_step_dom.
  - rewrite matrix_init_dom. set_solver.
Qed.

(** The table of the two spellings is ingested. *)
Lemma names_normalized_matrix_keyed_by_name_witness :
  ∃ data, load_input_from_excel literal_eval two_spellings = Ok data
    ∧ students data = listed_name two_spellings <$> named_rows two_spellings
    ∧ (∀ name, name ∈ students data ↔
           ∃ row c, row ∈ rows two_spellings ∧ row !! name_col = Some c ∧ c ≠ CNaN
                    ∧ name = Py.title (Py.strip (astype_str two_spellings c)))
    ∧ dom (availability_matrix data) = list_to_set (students data)
    ∧ length (students data) = length (named_rows two_spellings).
Proof.
  assert (is_ok (load_input_from_excel literal_eval two_spellings) = true) as Hok
    by reflexivity.
  destruct (load_input_from_excel literal_eval two_spellings) as [data|e] eqn:Hload;
    [|discriminate Hok].
  exists data. split; [reflexivity|].
  exact (names_normalized_matrix_keyed_by_name literal_eval two_spellings data Hload).
Defined.

(** C8, refuted as stated.  Two rows whose names normalize to the same
    string are both ingested: the run succeeds, the student list holds
    that name twice, and the matrix holds it once. *)
Lemma same_name_twice_in_student_list :
  normalize (CStr " alice") = normalize (CStr "ALICE ")
  ∧ (data ← load_input_from_excel literal_eval two_spellings; Ok (students data))
    = Ok ["Alice"%string; "Alice"%string]
  ∧ ¬ NoDup ["Alice"%string; "Alice"%string]
  ∧ (data ← load_input_from_excel literal_eval two_spellings;
     Ok (size (dom (availability_matrix data)))) = Ok 1%nat.
Proof.
  split; [reflexivity|]. split; [reflexivity|]. split; [|reflexivity].
  intros Hnd. inversion Hnd as [|name names Hnotin _]. apply Hnotin. by left.
Qed.

(** *** The days of the catalog *)

Lemma SHIFTS_days_known (sh : Shift) :
  sh ∈ SHIFTS → ∃ col, DAY_ABBR_TO_COL (day_of sh) = Ok col.
Proof.
  intros Hsh. apply is_ok_true.
  assert (forallb (λ sh, is_ok (DAY_ABBR_TO_COL (day_of sh))) SHIFTS = true) as Hall
    by reflexivity.
  rewrite forallb_forall in Hall. apply Hall. by apply list_elem_of_In.
Qed.

End IngestProps.


(** * Properties of the model *)

Module ModelProps.

Import AvailMatrBuilder solver Aux More.

(** *** Sums *)

Lemma eval_foldl_Plus (val : IntVar → Z) (es : list LinearExpr) (a : LinearExpr) :
  eval val (foldl Plus a es) = eval val a + Zsum (eval val <$> es).
Proof.
  revert a. induction es as [|e es IH]; intros a; csimpl; [lia|].
  rewrite IH. csimpl. lia.
Qed.

Lemma eval_sum (val : IntVar → Z) (es : list LinearExpr) :
  eval val (sum es) = Zsum (eval val <$> es).
Proof. unfold sum. rewrite eval_foldl_Plus. simpl. lia. Qed.

Lemma Zsum_ext {A : Type} (f g : A → Z) (l : list A) :
  (∀ a, a ∈ l → f a = g a) → Zsum (f <$> l) = Zsum (g <$> l).
Proof.
  induction l as [|a l IH]; intros Hfg; csimpl; [done|].
  rewrite (Hfg a) by by left. rewrite IH; [done|].
  intros a' Ha'. apply Hfg. by right.
Qed.

Lemma Zsum_scale {A : Type} (f : A → Z) (c : Z) (l : list A) :
  Zsum ((λ a, f a * c) <$> l) = Zsum (f <$> l) * c.
Proof. induction l as [|a l IH]; csimpl; [done|]. rewrite IH. lia. Qed.

Lemma Zsum_plus {A : Type} (f g : A → Z) (l : list A) :
  Zsum ((λ a, f a + g a) <$> l) = Zsum (f <$> l) + Zsum (g <$> l).
Proof. induction l as [|a l IH]; csimpl; [done|]. rewrite IH. lia. Qed.

Lemma Zsum_zero {A : Type} (l : list A) : Zsum ((λ _, 0) <$> l) = 0.
Proof. induction l as [|a l IH]; csimpl; [done|]. by rewrite IH. Qed.

(** Summing over the shifts and then over the people, or the other
    way round. *)
Lemma Zsum_swap {A B : Type} (f : A → B → Z) (la : list A) (lb : list B) :
  Zsum ((λ a, Zsum ((λ b, f a b) <$> lb)) <$> la)
  = Zsum ((λ b, Zsum ((λ a, f a b) <$> la)) <$> lb).
Proof.
  induction la as [|a la IH]; csimpl.
  - by rewrite Zsum_zero.
  - rewrite IH. by rewrite <- Zsum_plus.
Qed.


(** Counting the ones among values that are 0 or 1. *)
Lemma Zsum_indicator {A : Type} (f : A → Z) (l : list A) :
  (∀ a, a ∈ l → 0 <= f a <= 1) →
  Zsum (f <$> l) = Z.of_nat (length (filter (λ a, f a = 1) l)).
Proof.
  induction l as [|a l IH]; intros Hf; [done|].
  assert (0 <= f a <= 1) by (apply Hf; by left).
  rewrite filter_cons. csimpl. rewrite IH.
  - case_decide; csimpl; lia.
  - intros a' Ha'. apply Hf. by right.
Qed.

(** *** Adding constraints *)

Lemma extend_nil (m : CpModel) : extend m [] = m.
Proof. destruct m. unfold extend. simpl. by rewrite app_nil_r. Qed.

Lemma extend_extend (m : CpModel) (cs1 cs2 : list Constraint) :
  extend (extend m cs1) cs2 = extend m (cs1 ++ cs2).
Proof. unfold extend. simpl. by rewrite app_assoc. Qed.

Lemma Add_extend (c : Constraint) (m : CpModel) : Add c m = extend m [c].
Proof. reflexivity. Qed.

Lemma foldl_Add {A : Type} (g : A → Constraint) (l : list A) (m : CpModel) :
  foldl (λ m a, Add (g a) m) m l = extend m (g <$> l).
Proof.
  revert m. induction l as [|a l IH]; intros m; csimpl.
  - by rewrite extend_nil.
  - rewrite IH, Add_extend, extend_extend. done.
Qed.

Lemma foldl_Add_if {A : Type} (b : A → bool) (g : A → Constraint) (l : list A)
    (m : CpModel) :
  foldl (λ m a, if b a then Add (g a) m else m) m l
  = extend m (g <$> List.filter b l).
Proof.
  revert m. induction l as [|a l IH]; intros m; csimpl.
  - by rewrite extend_nil.
  - rewrite IH. destruct (b a); csimpl; [|done].
    by rewrite Add_extend, extend_extend.
Qed.

(** *** Insertion-ordered dictionaries *)

Section Dict.

Context {K V : Type} `{EqDecision K}.
Implicit Types (d : list (K * V)) (k : K) (v : V).

Lemma dict_key_of_elem d k v : (k, v) ∈ d → k ∈ d.*1.
Proof. intros Hin. apply list_elem_of_fmap. by exists (k, v). Qed.

Lemma dict_set_elem d k v k' v' :
  NoDup d.*1 →
  (k', v') ∈ dict_set k v d ↔ (k' = k ∧ v' = v) ∨ (k' ≠ k ∧ (k', v') ∈ d).
Proof.
  induction d as [|[k0 v0] d IH]; intros Hnd; csimpl.
  - rewrite list_elem_of_singleton, elem_of_nil. naive_solver.
  - csimpl in Hnd. apply list.NoDup_cons in Hnd as [Hk0 Hnd].
    destruct (decide (k = k0)) as [->|Hne]; rewrite !elem_of_cons.
    + split.
      * intros [[= -> ->]|Hin]; [by left|]. right. split; [|by right].
        intros ->. by apply Hk0, (dict_key_of_elem _ _ v').
      * intros [[-> ->]|[Hne [[= -> ->]|Hin]]]; [by left|done|by right].
    + rewrite (IH Hnd). split.
      * intros [[= -> ->]|[[-> ->]|[Hne' Hin]]]; [right; split; [done|by left]|by left|].
        right. split; [done|by right].
      * intros [[-> ->]|[Hne' [[= -> ->]|Hin]]]; [right; by left|by left|].
        right. right. by split.
Qed.

Lemma dict_set_key d k v k' : k' ∈ (dict_set k v d).*1 ↔ k' = k ∨ k' ∈ d.*1.
Proof.
  induction d as [|[k0 v0] d IH]; csimpl.
  - rewrite list_elem_of_singleton, elem_of_nil. naive_solver.
  - destruct (decide (k = k0)) as [->|Hne]; csimpl; rewrite !elem_of_cons.
    + naive_solver.
    + rewrite IH. naive_solver.
Qed.

Lemma dict_set_NoDup d k v : NoDup d.*1 → NoDup (dict_set k v d).*1.
Proof.
  induction d as [|[k0 v0] d IH]; intros Hnd; csimpl.
  - apply NoDup_singleton.
  - csimpl in Hnd. apply list.NoDup_cons in Hnd as [Hk0 Hnd].
    destruct (decide (k = k0)) as [->|Hne]; csimpl; apply list.NoDup_cons.
    + done.
    + split; [|by apply IH]. rewrite dict_set_key. naive_solver.
Qed.

Lemma dict_elem_get d (dflt : V) k v :
  NoDup d.*1 → (k, v) ∈ d → dict_get dflt k d = v.
Proof.
  induction d as [|[k0 v0] d IH]; intros Hnd Hin; [by apply elem_of_nil in Hin|].
  csimpl in Hnd. apply list.NoDup_cons in Hnd as [Hk0 Hnd]. csimpl.
  apply elem_of_cons in Hin as [[= -> ->]|Hin].
  - by rewrite decide_True.
  - rewrite decide_False; [by apply IH|].
    intros ->. by apply Hk0, (dict_key_of_elem _ _ v).
Qed.

Lemma dict_key_elem d (dflt : V) k : k ∈ d.*1 → (k, dict_get dflt k d) ∈ d.
Proof.
  induction d as [|[k0 v0] d IH]; csimpl; intros Hin; [by apply elem_of_nil in Hin|].
  destruct (decide (k = k0)) as [->|Hne]; [by left|].
  apply elem_of_cons in Hin as [->|Hin]; [done|]. right. by apply IH.
Qed.

End Dict.

(** *** The decision variables *)

Lemma new_x_all_bool (sid : ShiftId) (st : gmap (ShiftId * string) IntVar * CpModel)
    (s : string) :
  all_bool st → all_bool (new_x sid st s).
Proof.
  intros Hst k v. unfold new_x, NewBoolVar, NewIntVar. csimpl.
  destruct (decide (k = (sid, s))) as [->|Hne].
  - rewrite lookup_insert_eq. intros [= <-]. apply list_lookup_middle. done.
  - rewrite lookup_insert_ne by done. intros Hk.
    apply lookup_app_l_Some. by apply (Hst k).
Qed.

Lemma foldl_new_x (sid : ShiftId) (l : list string)
    (st : gmap (ShiftId * string) IntVar * CpModel) :
  all_bool st →
  all_bool (foldl (new_x sid) st l)
  ∧ (∀ k, is_Some (st.1 !! k) → is_Some ((foldl (new_x sid) st l).1 !! k))
  ∧ (∀ s, s ∈ l → is_Some ((foldl (new_x sid) st l).1 !! (sid, s)))
  ∧ variables (foldl (new_x sid) st l).2 = variables st.2 ++ replicate (length l) (0, 1)
  ∧ constraints (foldl (new_x sid) st l).2 = constraints st.2
  ∧ objective (foldl (new_x sid) st l).2 = objective st.2.
Proof.
  revert st. induction l as [|s l IH]; intros st Hst; csimpl.
  - rewrite app_nil_r. repeat split; try done. intros s Hs. by apply elem_of_nil in Hs.
  - destruct (IH (new_x sid st s) (new_x_all_bool sid st s Hst))
      as (Hall & Hkeep & Hnew & Hvars & Hcs & Hobj).
    split; [done|]. split; [|split; [|split; [|split]]].
    + intros k Hk. apply Hkeep. unfold new_x, NewBoolVar, NewIntVar. csimpl.
      destruct (decide (k = (sid, s))) as [->|Hne].
      * rewrite lookup_insert_eq. by eexists.
      * by rewrite lookup_insert_ne.
    + intros s' Hs'. apply elem_of_cons in Hs' as [->|Hs']; [|by apply Hnew].
      apply Hkeep. unfold new_x, NewBoolVar, NewIntVar. csimpl.
      rewrite lookup_insert_eq. by eexists.
    + rewrite Hvars. unfold new_x, NewBoolVar, NewIntVar. csimpl.
      by rewrite <- app_assoc.
    + by rewrite Hcs.
    + by rewrite Hobj.
Qed.

Lemma foldl_decision_vars (students : list string) (shifts : list Shift)
    (st : gmap (ShiftId * string) IntVar * CpModel) :
  let r := foldl (λ st sh, foldl (new_x (shift_id sh)) st students) st shifts in
  all_bool st →
  all_bool r
  ∧ (∀ k, is_Some (st.1 !! k) → is_Some (r.1 !! k))
  ∧ (∀ sh s, sh ∈ shifts → s ∈ students → is_Some (r.1 !! (shift_id sh, s)))
  ∧ variables r.2
    = variables st.2 ++ replicate (length shifts * length students) (0, 1)
  ∧ constraints r.2 = constraints st.2
  ∧ objective r.2 = objective st.2.
Proof.
  revert st. induction shifts as [|sh shifts IH]; intros st r Hst; subst r; csimpl.
  - rewrite app_nil_r. repeat split; try done.
    intros sh s Hsh. by apply elem_of_nil in Hsh.
  - destruct (foldl_new_x (shift_id sh) students st Hst)
      as (Hall1 & Hkeep1 & Hnew1 & Hvars1 & Hcs1 & Hobj1).
    destruct (IH _ Hall1) as (Hall & Hkeep & Hnew & Hvars & Hcs & Hobj).
    split; [done|]. split; [|split; [|split; [|split]]].
    + intros k Hk. by apply Hkeep, Hkeep1.
    + intros sh' s Hsh' Hs. apply elem_of_cons in Hsh' as [->|Hsh'].
      * by apply Hkeep, Hnew1.
      * by apply Hnew.
    + rewrite Hvars, Hvars1, <- app_assoc. f_equal.
      by rewrite <- replicate_add.
    + by rewrite Hcs.
    + by rewrite Hobj.
Qed.

Lemma decision_vars_spec (students : list string) (shifts : list Shift) (m : CpModel) :
  all_bool (decision_vars students shifts m)
  ∧ (∀ sh s, sh ∈ shifts → s ∈ students →
             is_Some ((decision_vars students shifts m).1 !! (shift_id sh, s)))
  ∧ variables (decision_vars students shifts m).2
    = variables m ++ replicate (length shifts * length students) (0, 1)
  ∧ constraints (decision_vars students shifts m).2 = constraints m
  ∧ objective (decision_vars students shifts m).2 = objective m.
Proof.
  destruct (foldl_decision_vars students shifts (∅, m)) as (H1 & _ & H2 & H3 & H4 & H5).
  { intros k v Hk. simpl in Hk. by rewrite lookup_empty in Hk. }
  done.
Qed.

(** [x[(sid, s)]] never misses. *)
Lemma x_hit (students : list string) (shifts : list Shift) (m : CpModel)
    (sh : Shift) (s : string) :
  sh ∈ shifts → s ∈ students →
  (decision_vars students shifts m).1 !! (shift_id sh, s)
  = Some ((decision_vars students shifts m).1 !!! (shift_id sh, s)).
Proof.
  intros Hsh Hs.
  destruct (decision_vars_spec students shifts m) as (_ & Hhit & _).
  destruct (Hhit sh s Hsh Hs) as [v Hv].
  by rewrite (lookup_total_correct _ _ _ Hv).
Qed.

(** [shift_lengths[sid]] never misses, and holds the rounded length. *)
Lemma shift_lengths_hit (shifts : list Shift) (sh : Shift) :
  sh ∈ shifts → length_of shifts (shift_id sh) = scaled_length (shift_id sh).
Proof.
  intros Hsh. unfold length_of, shift_lengths.
  assert (∀ (l : list Shift) (d : gmap ShiftId Z),
            (∀ k v, d !! k = Some v → v = scaled_length k) →
            (∀ k v, foldl (λ d sh, <[shift_id sh := scaled_length (shift_id sh)]> d) d l
                      !! k = Some v → v = scaled_length k)
            ∧ (∀ sh, sh ∈ l →
                 is_Some (foldl (λ d sh, <[shift_id sh := scaled_length (shift_id sh)]> d) d l
                            !! shift_id sh))
            ∧ (∀ k, is_Some (d !! k) →
                 is_Some (foldl (λ d sh, <[shift_id sh := scaled_length (shift_id sh)]> d) d l
                            !! k))) as Hfold.
  { induction l as [|sh' l IH]; intros d Hd; csimpl.
    - repeat split; try done. intros sh' Hsh'. by apply elem_of_nil in Hsh'.
    - destruct (IH (<[shift_id sh' := scaled_length (shift_id sh')]> d))
        as (Hval & Hnew & Hkeep).
      { intros k v. destruct (decide (k = shift_id sh')) as [->|Hne].
        - rewrite lookup_insert_eq. by intros [= <-].
        - rewrite lookup_insert_ne by done. apply Hd. }
      split; [done|]. split.
      + intros sh'' Hsh''. apply elem_of_cons in Hsh'' as [->|Hsh'']; [|by apply Hnew].
        apply Hkeep. rewrite lookup_insert_eq. by eexists.
      + intros k Hk. apply Hkeep. destruct (decide (k = shift_id sh')) as [->|Hne].
        * rewrite lookup_insert_eq. by eexists.
        * by rewrite lookup_insert_ne. }
  destruct (Hfold shifts ∅) as (Hval & Hnew & _).
  { intros k v Hk. by rewrite lookup_empty in Hk. }
  destruct (Hnew sh Hsh) as [v Hv].
  rewrite (lookup_total_correct _ _ _ Hv). by apply Hval in Hv.
Qed.

(** *** The load variables *)

Lemma foldl_new_total (l : list string) (st : list (string * IntVar) * CpModel) :
  NoDup st.1.*1 →
  (∀ k v, (k, v) ∈ st.1 → variables st.2 !! v = Some (0, MAX_WEEKLY_HOURS * SCALE)) →
  NoDup (foldl new_total st l).1.*1
  ∧ (∀ k v, (k, v) ∈ (foldl new_total st l).1 →
            variables (foldl new_total st l).2 !! v = Some (0, MAX_WEEKLY_HOURS * SCALE))
  ∧ (∀ k, k ∈ (foldl new_total st l).1.*1 ↔ k ∈ st.1.*1 ∨ k ∈ l)
  ∧ variables (foldl new_total st l).2
    = variables st.2 ++ replicate (length l) (0, MAX_WEEKLY_HOURS * SCALE)
  ∧ constraints (foldl new_total st l).2 = constraints st.2
  ∧ objective (foldl new_total st l).2 = objective st.2.
Proof.
  revert st. induction l as [|s l IH]; intros st Hnd Hdom; csimpl.
  - rewrite app_nil_r. repeat split; try done; [by left|].
    intros [Hk|Hk]; [done|by apply elem_of_nil in Hk].
  - destruct (IH (new_total st s)) as (Hnd' & Hdom' & Hkeys & Hvars & Hcs & Hobj).
    { unfold new_total, NewIntVar. csimpl. by apply dict_set_NoDup. }
    { intros k v. unfold new_total, NewIntVar. csimpl.
      rewrite (dict_set_elem _ _ _ _ _ Hnd). intros [[-> ->]|[Hne Hin]].
      - by apply list_lookup_middle.
      - apply lookup_app_l_Some. by apply (Hdom k). }
    split; [done|]. split; [done|]. split; [|split; [|split]].
    + intros k. rewrite Hkeys. unfold new_total, NewIntVar. csimpl.
      rewrite dict_set_key, elem_of_cons. naive_solver.
    + rewrite Hvars. unfold new_total, NewIntVar. csimpl. by rewrite <- app_assoc.
    + by rewrite Hcs.
    + by rewrite Hobj.
Qed.

Lemma total_hours_vars_spec (students : list string) (m : CpModel) :
  NoDup (total_hours_vars students m).1.*1
  ∧ (∀ k v, (k, v) ∈ (total_hours_vars students m).1 →
            variables (total_hours_vars students m).2 !! v
            = Some (0, MAX_WEEKLY_HOURS * SCALE))
  ∧ (∀ k, k ∈ (total_hours_vars students m).1.*1 ↔ k ∈ students)
  ∧ variables (total_hours_vars students m).2
    = variables m ++ replicate (length students) (0, MAX_WEEKLY_HOURS * SCALE)
  ∧ constraints (total_hours_vars students m).2 = constraints m
  ∧ objective (total_hours_vars students m).2 = objective m.
Proof.
  destruct (foldl_new_total students ([], m)) as (H1 & H2 & H3 & H4 & H5 & H6).
  { constructor. }
  { intros k v Hk. by apply elem_of_nil in Hk. }
  split; [done|]. split; [done|]. split; [|done].
  intros k. unfold total_hours_vars. rewrite H3. csimpl. rewrite elem_of_nil.
  naive_solver.
Qed.

(** *** The constraints, phase by phase *)

Lemma coverage_extend (students : list string) (shifts : list Shift)
    (x : gmap (ShiftId * string) IntVar) (m : CpModel) :
  coverage students shifts x m
  = extend m ((λ sh, Eq (sum ((λ s, X x (shift_id sh) s) <$> students))
                        (Const (required sh))) <$> shifts).
Proof. unfold coverage. by rewrite foldl_Add. Qed.

Lemma weekly_hour_limit_extend (students : list string) (shifts : list Shift)
    (x : gmap (ShiftId * string) IntVar) (m : CpModel) :
  weekly_hour_limit students shifts x m
  = extend m ((λ s, Le (total_hours_scaled shifts x s)
                       (Const (MAX_WEEKLY_HOURS * SCALE))) <$> students).
Proof. unfold weekly_hour_limit. by rewrite foldl_Add. Qed.

Lemma total_hours_eq_extend (students : list string) (shifts : list Shift)
    (x : gmap (ShiftId * string) IntVar) (total_hours : list (string * IntVar))
    (m : CpModel) :
  total_hours_eq students shifts x total_hours m
  = extend m ((λ s, Eq (Var (dict_get 0%nat s total_hours))
                       (total_hours_scaled shifts x s)) <$> students).
Proof. unfold total_hours_eq. by rewrite foldl_Add. Qed.

Lemma availability_extend (students : list string)
    (availability_matrix : gmap string (gmap ShiftId Z)) (shifts : list Shift)
    (x : gmap (ShiftId * string) IntVar) (m : CpModel) :
  ∃ cs, availability students availability_matrix shifts x m = extend m cs
        ∧ (∀ sh s, sh ∈ shifts → s ∈ students →
                   avail availability_matrix s (shift_id sh) = 0 →
                   Eq (X x (shift_id sh) s) (Const 0) ∈ cs)
        ∧ (∀ c, c ∈ cs → ∃ sh s, sh ∈ shifts ∧ s ∈ students
                   ∧ avail availability_matrix s (shift_id sh) = 0
                   ∧ c = Eq (X x (shift_id sh) s) (Const 0)).
Proof.
  unfold availability. revert m.
  induction shifts as [|sh shifts IH]; intros m; csimpl.
  - exists []. rewrite extend_nil. split; [done|]. split.
    + intros sh s Hsh. by apply elem_of_nil in Hsh.
    + intros c Hc. by apply elem_of_nil in Hc.
  - rewrite (foldl_Add_if
               (λ s, bool_decide (avail availability_matrix s (shift_id sh) = 0))
               (λ s, Eq (X x (shift_id sh) s) (Const 0))).
    destruct (IH (extend m ((λ s, Eq (X x (shift_id sh) s) (Const 0)) <$>
                List.filter (λ s, bool_decide (avail availability_matrix s (shift_id sh) = 0))
                            students)))
      as (cs & -> & Hin & Hout).
    eexists. rewrite extend_extend. split; [done|]. split.
    + intros sh' s Hsh' Hs Hav. apply elem_of_app.
      apply elem_of_cons in Hsh' as [->|Hsh']; [left|right; by apply Hin].
      apply list_elem_of_fmap. exists s. split; [done|].
      apply list_elem_of_In, filter_In. split; [by apply list_elem_of_In|].
      by apply bool_decide_eq_true_2.
    + intros c Hc. apply elem_of_app in Hc as [Hc|Hc].
      * apply list_elem_of_fmap in Hc as (s & -> & Hs).
        apply list_elem_of_In, filter_In in Hs as [Hs Hav].
        exists sh, s. split; [by left|]. split; [by apply list_elem_of_In|].
        split; [by apply bool_decide_eq_true_1 in Hav|done].
      * destruct (Hout c Hc) as (sh' & s & Hsh' & Hrest).
        exists sh', s. split; [by right|done].
Qed.

(** *** The model that the script builds *)

Section Built.

Variable students : list string.
Variable availability_matrix : gmap string (gmap ShiftId Z).
Variable shifts : list Shift.

Local Abbreviation b := (build students availability_matrix shifts).
Local Abbreviation cap := (MAX_WEEKLY_HOURS * SCALE).

Lemma build_spec :
  x b = (decision_vars students shifts empty_model).1
  ∧ variables (model b)
    = replicate (length shifts * length students) (0, 1)
      ++ replicate (length students) (0, cap) ++ [(0, cap); (0, cap)]
  ∧ max_h b = (length shifts * length students + length students)%nat
  ∧ min_h b = S (length shifts * length students + length students)
  ∧ objective (model b) = Some (Minus (Var (max_h b)) (Var (min_h b)))
  ∧ NoDup (total_hours b).*1
  ∧ (∀ k, k ∈ (total_hours b).*1 ↔ k ∈ students)
  ∧ (∀ k v, (k, v) ∈ total_hours b → variables (model b) !! v = Some (0, cap))
  ∧ ∃ av,
      constraints (model b)
      = ((λ sh, Eq (sum ((λ s, X (x b) (shift_id sh) s) <$> students))
                   (Const (required sh))) <$> shifts)
        ++ av
        ++ ((λ s, Le (total_hours_scaled shifts (x b) s) (Const cap)) <$> students)
        ++ ((λ s, Eq (Var (dict_get 0%nat s (total_hours b)))
                     (total_hours_scaled shifts (x b) s)) <$> students)
        ++ [MaxEquality (max_h b) (total_hours b).*2;
            MinEquality (min_h b) (total_hours b).*2]
      ∧ (∀ sh s, sh ∈ shifts → s ∈ students →
                 avail availability_matrix s (shift_id sh) = 0 →
                 Eq (X (x b) (shift_id sh) s) (Const 0) ∈ av)
      ∧ (∀ c, c ∈ av → ∃ sh s, sh ∈ shifts ∧ s ∈ students
                 ∧ avail availability_matrix s (shift_id sh) = 0
                 ∧ c = Eq (X (x b) (shift_id sh) s) (Const 0)).
Proof.
  unfold build.
  destruct (decision_vars_spec students shifts empty_model)
    as (_ & _ & Hvars0 & Hcs0 & Hobj0).
  destruct (decision_vars students shifts empty_model) as [x0 m0]. simpl in *.
  rewrite coverage_extend.
  destruct (availability_extend students availability_matrix shifts x0
              (extend m0 ((λ sh, Eq (sum ((λ s, X x0 (shift_id sh) s) <$> students))
                                    (Const (required sh))) <$> shifts)))
    as (av & -> & Hav_in & Hav_out).
  rewrite weekly_hour_limit_extend.
  change (max_shifts_per_day students shifts x0 ?m) with m.
  change (max_daily_hours students shifts x0 ?m) with m.
  rewrite !extend_extend.
  match goal with |- context [total_hours_vars students ?m] =>
    destruct (total_hours_vars_spec students m)
      as (Hnd & Hdom & Hkeys & Hvars1 & Hcs1 & Hobj1);
    destruct (total_hours_vars students m) as [th m1]
  end.
  simpl in *. rewrite total_hours_eq_extend.
  unfold extend, Add, Minimize. simpl.
  rewrite Hvars1, Hcs1, Hvars0, Hcs0. rewrite ?length_app, ?length_replicate. simpl.
  split; [done|]. split; [by rewrite <- !app_assoc|].
  split; [lia|]. split; [lia|]. split; [done|]. split; [done|]. split; [done|].
  split.
  { intros k v Hk. rewrite <- !app_assoc. rewrite app_assoc.
    apply lookup_app_l_Some. rewrite <- Hvars0, <- Hvars1. by apply (Hdom k). }
  exists av. split; [|done]. by rewrite <- !app_assoc.
Qed.

End Built.

(** *** Solutions of the model *)

Lemma feasibleb_sound (val : IntVar → Z) (m : CpModel) :
  feasibleb val m = true → feasible val m.
Proof.
  unfold feasibleb, feasible. intros H. apply andb_true_iff in H as [Hdom Hcs].
  rewrite forallb_forall in Hdom. rewrite forallb_forall in Hcs. split.
  - intros v lb ub Hv.
    assert (In (v, (lb, ub)) (imap (λ v d, (v, d)) (variables m))) as Hin.
    { apply list_elem_of_In. by apply (elem_of_lookup_imap_2 (λ v d, (v, d))). }
    specialize (Hdom _ Hin). simpl in Hdom. by apply bool_decide_eq_true_1 in Hdom.
  - apply Forall_forall. intros c Hc.
    specialize (Hcs c Hc).
    destruct c as [e1 e2|e1 e2|t vs|t vs]; simpl in *.
    + by apply bool_decide_eq_true_1 in Hcs.
    + by apply bool_decide_eq_true_1 in Hcs.
    + apply andb_true_iff in Hcs as [Hex Hall]. split.
      * apply existsb_exists in Hex as (v & Hv & Heq).
        apply bool_decide_eq_true_1 in Heq. rewrite Heq.
        apply list_elem_of_fmap_2. by apply list_elem_of_In.
      * apply Forall_forall. intros v Hv. rewrite forallb_forall in Hall.
        specialize (Hall v Hv).
        by apply bool_decide_eq_true_1 in Hall.
    + apply andb_true_iff in Hcs as [Hex Hall]. split.
      * apply existsb_exists in Hex as (v & Hv & Heq).
        apply bool_decide_eq_true_1 in Heq. rewrite Heq.
        apply list_elem_of_fmap_2. by apply list_elem_of_In.
      * apply Forall_forall. intros v Hv. rewrite forallb_forall in Hall.
        specialize (Hall v Hv).
        by apply bool_decide_eq_true_1 in Hall.
Qed.

Lemma feasible_holds (val : IntVar → Z) (m : CpModel) (c : Constraint) :
  feasible val m → c ∈ constraints m → holds val c.
Proof.
  intros [_ Hcs] Hc. apply (proj1 (Forall_forall _ _) Hcs). by apply list_elem_of_In.
Qed.

Lemma eval_total_hours_scaled (val : IntVar → Z) (shifts : list Shift)
    (x : gmap (ShiftId * string) IntVar) (s : string) :
  eval val (total_hours_scaled shifts x s) = scaled_load shifts x val s.
Proof.
  unfold total_hours_scaled, scaled_load. rewrite eval_sum, <- list_fmap_compose.
  apply Zsum_ext. intros sh Hsh. simpl. by rewrite shift_lengths_hit.
Qed.

Lemma eval_headcount (val : IntVar → Z) (students : list string)
    (x : gmap (ShiftId * string) IntVar) (sid : ShiftId) :
  eval val (sum ((λ s, X x sid s) <$> students))
  = Zsum ((λ s, val (x !!! (sid, s))) <$> students).
Proof. by rewrite eval_sum, <- list_fmap_compose. Qed.

Section Solutions.

Variable students : list string.
Variable availability_matrix : gmap string (gmap ShiftId Z).
Variable shifts : list Shift.

Local Abbreviation b := (build students availability_matrix shifts).
Local Abbreviation cap := (MAX_WEEKLY_HOURS * SCALE).

Lemma coverage_in_model (sh : Shift) :
  sh ∈ shifts →
  Eq (sum ((λ s, X (x b) (shift_id sh) s) <$> students)) (Const (required sh))
  ∈ constraints (model b).
Proof.
  intros Hsh.
  destruct (build_spec students availability_matrix shifts)
    as (_ & _ & _ & _ & _ & _ & _ & _ & av & -> & _).
  apply elem_of_app. left.
  by apply (list_elem_of_fmap_2
              (λ sh, Eq (sum ((λ s, X (x b) (shift_id sh) s) <$> students))
                        (Const (required sh)))).
Qed.

Lemma weekly_limit_in_model (s : string) :
  s ∈ students →
  Le (total_hours_scaled shifts (x b) s) (Const cap) ∈ constraints (model b).
Proof.
  intros Hs.
  destruct (build_spec students availability_matrix shifts)
    as (_ & _ & _ & _ & _ & _ & _ & _ & av & -> & _).
  apply elem_of_app. right. apply elem_of_app. right. apply elem_of_app. left.
  by apply (list_elem_of_fmap_2
              (λ s, Le (total_hours_scaled shifts (x b) s) (Const cap))).
Qed.

Lemma load_definition_in_model (s : string) :
  s ∈ students →
  Eq (Var (dict_get 0%nat s (total_hours b))) (total_hours_scaled shifts (x b) s)
  ∈ constraints (model b).
Proof.
  intros Hs.
  destruct (build_spec students availability_matrix shifts)
    as (_ & _ & _ & _ & _ & _ & _ & _ & av & -> & _).
  do 3 (apply elem_of_app; right). apply elem_of_app. left.
  by apply (list_elem_of_fmap_2
              (λ s, Eq (Var (dict_get 0%nat s (total_hours b)))
                       (total_hours_scaled shifts (x b) s))).
Qed.

Lemma max_min_in_model :
  MaxEquality (max_h b) (total_hours b).*2 ∈ constraints (model b)
  ∧ MinEquality (min_h b) (total_hours b).*2 ∈ constraints (model b).
Proof.
  destruct (build_spec students availability_matrix shifts)
    as (_ & _ & _ & _ & _ & _ & _ & _ & av & -> & _).
  split; do 4 (apply elem_of_app; right); [by left|right; by left].
Qed.

Lemma forced_zero_in_model (sh : Shift) (s : string) :
  sh ∈ shifts → s ∈ students → avail availability_matrix s (shift_id sh) = 0 →
  Eq (X (x b) (shift_id sh) s) (Const 0) ∈ constraints (model b).
Proof.
  intros Hsh Hs Hav.
  destruct (build_spec students availability_matrix shifts)
    as (_ & _ & _ & _ & _ & _ & _ & _ & av & -> & Hin & _).
  apply elem_of_app. right. apply elem_of_app. left. by apply Hin.
Qed.

(** Every pair of the cross product has its Boolean variable. *)
Lemma x_is_bool (sh : Shift) (s : string) :
  sh ∈ shifts → s ∈ students →
  x b !! (shift_id sh, s) = Some (x b !!! (shift_id sh, s))
  ∧ variables (model b) !! (x b !!! (shift_id sh, s)) = Some (0, 1).
Proof.
  intros Hsh Hs.
  destruct (build_spec students availability_matrix shifts) as (Hx & Hvars & _).
  rewrite Hx, Hvars.
  pose proof (x_hit students shifts empty_model sh s Hsh Hs) as Hhit.
  split; [done|].
  destruct (decision_vars_spec students shifts empty_model) as (Hbool & _ & Hv & _).
  apply lookup_app_l_Some. specialize (Hbool _ _ Hhit). by rewrite Hv in Hbool.
Qed.

Lemma x_zero_or_one (val : IntVar → Z) (sh : Shift) (s : string) :
  feasible val (model b) → sh ∈ shifts → s ∈ students →
  0 <= val (x b !!! (shift_id sh, s)) <= 1.
Proof.
  intros [Hdom _] Hsh Hs. apply Hdom. by apply x_is_bool.
Qed.

Lemma headcount_met (val : IntVar → Z) (sh : Shift) :
  feasible val (model b) → sh ∈ shifts →
  Z.of_nat (length (assigned students (x b) val sh)) = required sh.
Proof.
  intros Hval Hsh.
  pose proof (feasible_holds _ _ _ Hval (coverage_in_model sh Hsh)) as Hcov.
  simpl in Hcov. rewrite eval_headcount in Hcov. rewrite <- Hcov.
  unfold assigned. symmetry.
  apply (Zsum_indicator (λ s, val (x b !!! (shift_id sh, s)))).
  intros s Hs. by apply x_zero_or_one.
Qed.

Lemma load_within_cap (val : IntVar → Z) (s : string) :
  feasible val (model b) → s ∈ students →
  scaled_load shifts (x b) val s <= cap.
Proof.
  intros Hval Hs.
  pose proof (feasible_holds _ _ _ Hval (weekly_limit_in_model s Hs)) as Hle.
  simpl in Hle. by rewrite eval_total_hours_scaled in Hle.
Qed.

Lemma load_variable_is_load (val : IntVar → Z) (s : string) :
  feasible val (model b) → s ∈ students →
  val (dict_get 0%nat s (total_hours b)) = scaled_load shifts (x b) val s.
Proof.
  intros Hval Hs.
  pose proof (feasible_holds _ _ _ Hval (load_definition_in_model s Hs)) as Heq.
  simpl in Heq. by rewrite eval_total_hours_scaled in Heq.
Qed.

End Solutions.

(** *** The keys of the assignment variables *)




(** ** The claims about the model *)

(** The values of the small instance solve its model. *)
Lemma ana_works_feasible :
  feasible ana_works (model (build two_people ana_free [early_shift])).
Proof. apply feasibleb_sound. reflexivity. Qed.




(** C2.  The first |shifts| x |people| variables of the model are the
    Boolean assignment variables, and every (shift, person) pair of the
    cross product has one of them under its key in [x].  Where the
    availability entry of the pair is 0 the model holds the constraint
    that the variable equals 0; hence in every solution a pair whose
    variable is 1 has a non-zero availability entry. *)
Theorem unavailable_pairs_are_forced_to_zero
    (students : list string) (availability_matrix : gmap string (gmap ShiftId Z))
    (shifts : list Shift) (sh : Shift) (s : string) :
  sh ∈ shifts → s ∈ students →
  take (length shifts * length students)
       (variables (model (build students availability_matrix shifts)))
  = replicate (length shifts * length students) (0, 1)
  ∧ ∃ v : IntVar,
      x (build students availability_matrix shifts) !! (shift_id sh, s) = Some v
      ∧ variables (model (build students availability_matrix shifts)) !! v = Some (0, 1)
      ∧ (avail availability_matrix s (shift_id sh) = 0 →
         Eq (Var v) (Const 0)
         ∈ constraints (model (build students availability_matrix shifts)))
      ∧ ∀ val, feasible val (model (build students availability_matrix shifts)) →
               val v = 1 → avail availability_matrix s (shift_id sh) ≠ 0.
Proof.
  intros Hsh Hs. split.
  { destruct (build_spec students availability_matrix shifts) as (_ & -> & _).
    rewrite take_app_length'; [done|]. by rewrite length_replicate. }
  destruct (x_is_bool students availability_matrix shifts sh s Hsh Hs) as [Hx Hv].
  eexists. split; [exact Hx|]. split; [exact Hv|]. split.
  - intros Hav. by apply forced_zero_in_model.
  - intros val Hval Hone Hav.
    pose proof (feasible_holds _ _ _ Hval
                  (forced_zero_in_model students availability_matrix shifts
                     sh s Hsh Hs Hav)) as Hzero.
    simpl in Hzero. lia.
Qed.

(** Ben has no availability entry for the early shift. *)
Lemma unavailable_pairs_are_forced_to_zero_witness :
  take (length [early_shift] * length two_people)
       (variables (model (build two_people ana_free [early_shift])))
  = replicate (length [early_shift] * length two_people) (0, 1)
  ∧ ∃ v : IntVar,
      x (build two_people ana_free [early_shift]) !! (shift_id early_shift, "Ben"%string)
      = Some v
      ∧ variables (model (build two_people ana_free [early_shift])) !! v = Some (0, 1)
      ∧ (avail ana_free "Ben" (shift_id early_shift) = 0 →
         Eq (Var v) (Const 0)
         ∈ constraints (model (build two_people ana_free [early_shift])))
      ∧ ∀ val, feasible val (model (build two_people ana_free [early_shift])) →
               val v = 1 → avail ana_free "Ben" (shift_id early_shift) ≠ 0.
Proof.
  apply (unavailable_pairs_are_forced_to_zero two_people ana_free [early_shift]
           early_shift "Ben").
  - by left.
  - right. by left.
Defined.

Lemma total_hours_values (students : list string)
    (availability_matrix : gmap string (gmap ShiftId Z)) (shifts : list Shift)
    (v : IntVar) :
  v ∈ (total_hours (build students availability_matrix shifts)).*2 ↔
  ∃ s, s ∈ students
       ∧ v = dict_get 0%nat s (total_hours (build students availability_matrix shifts)).
Proof.
  destruct (build_spec students availability_matrix shifts)
    as (_ & _ & _ & _ & _ & Hnd & Hkeys & _).
  rewrite list_elem_of_fmap. split.
  - intros ([s v'] & -> & Hin). exists s. split.
    + by apply Hkeys, (dict_key_of_elem _ _ v').
    + simpl. symmetry. by apply dict_elem_get.
  - intros (s & Hs & ->). eexists (s, _). split; [done|].
    by apply dict_key_elem, Hkeys.
Qed.

(** C3.  The objective of the model is to minimize [max_h - min_h] and
    nothing else.  Each person has a load variable with domain
    [0, MAX_WEEKLY_HOURS * SCALE], set equal to the sum over the shifts
    of assignment variable times scaled length; [max_h] and [min_h] are
    tied by a max-equality and a min-equality to the load variables.  So
    in every solution each load variable is the person's scaled load, it
    lies within the bounds, [max_h] is the largest load and [min_h] the
    smallest, and the objective's value is their difference. *)
Theorem objective_is_max_load_minus_min_load
    (students : list string) (availability_matrix : gmap string (gmap ShiftId Z))
    (shifts : list Shift) :
  let b := build students availability_matrix shifts in
  objective (model b) = Some (Minus (Var (max_h b)) (Var (min_h b)))
  ∧ MaxEquality (max_h b) (total_hours b).*2 ∈ constraints (model b)
  ∧ MinEquality (min_h b) (total_hours b).*2 ∈ constraints (model b)
  ∧ (∀ v, v ∈ (total_hours b).*2 ↔
          ∃ s, s ∈ students ∧ v = dict_get 0%nat s (total_hours b))
  ∧ (∀ s, s ∈ students →
          Eq (Var (dict_get 0%nat s (total_hours b)))
             (sum ((λ sh, Times (X (x b) (shift_id sh) s)
                                (length_of shifts (shift_id sh))) <$> shifts))
          ∈ constraints (model b)
          ∧ variables (model b) !! dict_get 0%nat s (total_hours b)
            = Some (0, MAX_WEEKLY_HOURS * SCALE))
  ∧ ∀ val, feasible val (model b) →
      (∀ s, s ∈ students →
            val (dict_get 0%nat s (total_hours b)) = scaled_load shifts (x b) val s
            ∧ 0 <= scaled_load shifts (x b) val s <= MAX_WEEKLY_HOURS * SCALE
            ∧ val (min_h b) <= scaled_load shifts (x b) val s <= val (max_h b))
      ∧ (∃ s, s ∈ students ∧ val (max_h b) = scaled_load shifts (x b) val s)
      ∧ (∃ s, s ∈ students ∧ val (min_h b) = scaled_load shifts (x b) val s)
      ∧ eval val (Minus (Var (max_h b)) (Var (min_h b)))
        = val (max_h b) - val (min_h b).
Proof.
  intros b.
  destruct (build_spec students availability_matrix shifts)
    as (_ & _ & _ & _ & Hobj & Hnd & Hkeys & Hdom & _).
  destruct (max_min_in_model students availability_matrix shifts) as [Hmax Hmin].
  pose proof (total_hours_values students availability_matrix shifts) as Hvalues.
  split; [done|]. split; [done|]. split; [done|]. split; [done|]. split.
  { intros s Hs. split; [by apply load_definition_in_model|].
    apply (Hdom s). by apply dict_key_elem, Hkeys. }
  intros val Hval.
  pose proof (feasible_holds _ _ _ Hval Hmax) as [Hmax_in Hmax_ge].
  pose proof (feasible_holds _ _ _ Hval Hmin) as [Hmin_in Hmin_le].
  assert (∀ s, s ∈ students →
            val (dict_get 0%nat s (total_hours b)) = scaled_load shifts (x b) val s)
    as Hload by (intros s Hs; by apply load_variable_is_load).
  split; [|split; [|split; [|done]]].
  - intros s Hs. split; [by apply Hload|].
    assert (dict_get 0%nat s (total_hours b) ∈ (total_hours b).*2) as Hin
      by (apply Hvalues; by exists s).
    rewrite <- (Hload s Hs). split.
    + destruct Hval as [Hbounds _]. apply Hbounds, (Hdom s).
      by apply dict_key_elem, Hkeys.
    + split.
      * by apply (proj1 (list.Forall_forall _ _) Hmin_le).
      * by apply (proj1 (list.Forall_forall _ _) Hmax_ge).
  - apply list_elem_of_fmap in Hmax_in as (v & Heq & Hv).
    apply Hvalues in Hv as (s & Hs & ->). exists s. split; [done|].
    rewrite <- (Hload s Hs). exact Heq.
  - apply list_elem_of_fmap in Hmin_in as (v & Heq & Hv).
    apply Hvalues in Hv as (s & Hs & ->). exists s. split; [done|].
    rewrite <- (Hload s Hs). exact Heq.
Qed.

(** In the small instance the largest load is Ana's and the smallest
    Ben's. *)
Lemma objective_is_max_load_minus_min_load_witness :
  (∃ s, s ∈ two_people
        ∧ ana_works (max_h (build two_people ana_free [early_shift]))
          = scaled_load [early_shift] (x (build two_people ana_free [early_shift]))
                        ana_works s)
  ∧ (∃ s, s ∈ two_people
          ∧ ana_works (min_h (build two_people ana_free [early_shift]))
            = scaled_load [early_shift] (x (build two_people ana_free [early_shift]))
                          ana_works s).
Proof.
  destruct (objective_is_max_load_minus_min_load two_people ana_free [early_shift])
    as (_ & _ & _ & _ & _ & Hsol).
  destruct (Hsol ana_works) as (_ & Hmax & Hmin & _).
  - apply feasibleb_sound. reflexivity.
  - split; [exact Hmax|exact Hmin].
Defined.

(** The catalog's lengths in ticks are exact: four times the length in
    hours. *)
Lemma SHIFTS_lengths_exact (sh : Shift) :
  sh ∈ SHIFTS →
  Q2Qc (inject_Z (scaled_length (shift_id sh)))
  = (((shift_id sh).2 - (shift_id sh).1.2) * Q2Qc (inject_Z SCALE))%Qc.
Proof.
  intros Hsh.
  assert (forallb (λ sh, bool_decide
            (Q2Qc (inject_Z (scaled_length (shift_id sh)))
             = (((shift_id sh).2 - (shift_id sh).1.2) * Q2Qc (inject_Z SCALE))%Qc))
            SHIFTS
          = true) as Hall by reflexivity.
  rewrite forallb_forall in Hall.
  specialize (Hall sh (proj1 (list_elem_of_In _ _) Hsh)).
  by apply bool_decide_eq_true_1 in Hall.
Qed.

(** C5.  The model holds, for each person, the linear inequality
    "sum over the shifts of assignment variable times scaled length
    <= MAX_WEEKLY_HOURS * SCALE", so in every solution the person's load
    in quarter-hour ticks is at most the cap in ticks, which is 80 for
    the cap of 20 hours and 4 ticks to the hour.  On the catalog the
    scaled length of a shift is exactly four times its length in
    hours. *)
Theorem weekly_load_is_within_the_cap
    (students : list string) (availability_matrix : gmap string (gmap ShiftId Z))
    (shifts : list Shift) (val : IntVar → Z) (s : string) :
  feasible val (model (build students availability_matrix shifts)) →
  s ∈ students →
  Le (sum ((λ sh, Times (X (x (build students availability_matrix shifts))
                           (shift_id sh) s)
                        (length_of shifts (shift_id sh))) <$> shifts))
     (Const (MAX_WEEKLY_HOURS * SCALE))
  ∈ constraints (model (build students availability_matrix shifts))
  ∧ scaled_load shifts (x (build students availability_matrix shifts)) val s
    <= MAX_WEEKLY_HOURS * SCALE
  ∧ MAX_WEEKLY_HOURS = 20 ∧ SCALE = 4 ∧ MAX_WEEKLY_HOURS * SCALE = 80
  ∧ ∀ sh, sh ∈ SHIFTS →
          Q2Qc (inject_Z (scaled_length (shift_id sh)))
          = (((shift_id sh).2 - (shift_id sh).1.2) * Q2Qc (inject_Z SCALE))%Qc.
Proof.
  intros Hval Hs. split; [by apply weekly_limit_in_model|].
  split; [by apply load_within_cap|]. repeat (split; [done|]).
  apply SHIFTS_lengths_exact.
Qed.

(** Ana's load in the small instance. *)
Lemma weekly_load_is_within_the_cap_witness :
  Le (sum ((λ sh, Times (X (x (build two_people ana_free [early_shift]))
                           (shift_id sh) "Ana")
                        (length_of [early_shift] (shift_id sh))) <$> [early_shift]))
     (Const (MAX_WEEKLY_HOURS * SCALE))
  ∈ constraints (model (build two_people ana_free [early_shift]))
  ∧ scaled_load [early_shift] (x (build two_people ana_free [early_shift]))
                ana_works "Ana"
    <= MAX_WEEKLY_HOURS * SCALE
  ∧ MAX_WEEKLY_HOURS = 20 ∧ SCALE = 4 ∧ MAX_WEEKLY_HOURS * SCALE = 80
  ∧ ∀ sh, sh ∈ SHIFTS →
          Q2Qc (inject_Z (scaled_length (shift_id sh)))
          = (((shift_id sh).2 - (shift_id sh).1.2) * Q2Qc (inject_Z SCALE))%Qc.
Proof.
  apply (weekly_load_is_within_the_cap two_people ana_free [early_shift]
           ana_works "Ana").
  - apply feasibleb_sound. reflexivity.
  - by left.
Defined.

(** The ticks the catalog asks for are the ticks the people work. *)
Lemma required_ticks_are_worked
    (students : list string) (availability_matrix : gmap string (gmap ShiftId Z))
    (shifts : list Shift) (val : IntVar → Z) :
  feasible val (model (build students availability_matrix shifts)) →
  required_ticks shifts
  = Zsum ((λ s, scaled_load shifts (x (build students availability_matrix shifts)) val s)
            <$> students).
Proof.
  intros Hval. unfold required_ticks, scaled_load.
  rewrite <- (Zsum_swap
                (λ sh s, val (x (build students availability_matrix shifts)
                                !!! (shift_id sh, s))
                         * scaled_length (shift_id sh))).
  apply Zsum_ext. intros sh Hsh. rewrite Zsum_scale. f_equal.
  pose proof (feasible_holds _ _ _ Hval
                (coverage_in_model students availability_matrix shifts sh Hsh)) as Hcov.
  simpl in Hcov. rewrite eval_headcount in Hcov. by rewrite Hcov.
Qed.




End ModelProps.


(** * Further properties of the ingestor *)

Module IngestMore.

Import AvailMatrBuilder Aux More IngestProps.

(** *** Times of day *)

Lemma digit_range (c : ascii) (d : Z) : Py.digit c = Some d → 0 <= d <= 9.
Proof.
  unfold Py.digit.
  destruct ((48 <=? Py.code c)%N && (Py.code c <=? 57)%N) eqn:Hc; [|done].
  apply andb_true_iff in Hc as [Hlo Hhi].
  apply N.leb_le in Hlo. apply N.leb_le in Hhi. intros [= <-]. lia.
Qed.

Lemma field_range (hi : Z) (s rest : string) (v : Z) :
  9 <= hi → Py.field hi s = Some (v, rest) → 0 <= v <= hi.
Proof.
  intros Hhi. unfold Py.field.
  destruct s as [|c1 s1]; [done|].
  destruct (Py.digit c1) as [d1|] eqn:H1; [|done].
  apply digit_range in H1.
  destruct s1 as [|c2 s2]; [intros [= <- <-]; lia|].
  destruct (Py.digit c2) as [d2|] eqn:H2; [|intros [= <- <-]; lia].
  apply digit_range in H2.
  destruct (10 * d1 + d2 <=? hi) eqn:Hle; intros [= <- <-]; [|lia].
  apply Z.leb_le in Hle. lia.
Qed.

Lemma strptime_HMS_range (s : string) (h m : Z) :
  Py.strptime_HMS s = Ok (h, m) → 0 <= h <= 23 ∧ 0 <= m <= 59.
Proof.
  unfold Py.strptime_HMS.
  destruct (Py.field 23 s) as [[h' s1]|] eqn:Hh; [|done].
  destruct (Py.colon s1) as [s2|]; [|done].
  destruct (Py.field 59 s2) as [[m' s3]|] eqn:Hm; [|done].
  destruct (Py.colon s3) as [s4|]; [|done].
  destruct (Py.field 61 s4) as [[sec [|]]|]; try done.
  destruct (sec <=? 59); [|done]. intros [= <- <-].
  split; [by eapply field_range; [|exact Hh]|by eapply field_range; [|exact Hm]].
Qed.

Lemma strptime_HMS_raises (s : string) (e : exn) :
  Py.strptime_HMS s = Raise e → e = ValueError.
Proof.
  unfold Py.strptime_HMS.
  repeat (match goal with
          | |- context [match ?t with _ => _ end] => destruct t
          end; try done); by intros [= <-].
Qed.

Lemma hhmm_value (h m : Z) :
  (Q2Qc (inject_Z h) + Q2Qc (inject_Z m) / Q2Qc (inject_Z 60))%Qc
  = Q2Qc ((60 * h + m) # 60).
Proof.
  apply Qc_is_canon. unfold Qcdiv, Qcinv, Qcmult, Qcplus, Q2Qc. simpl.
  rewrite !Qred_correct. unfold Qeq, Qplus, Qmult, Qinv. simpl. lia.
Qed.

(** X1.  A time that [_hhmm_to_float] accepts is [h + m / 60] for an
    hour [h] from 0 to 23 and a minute [m] from 0 to 59 (the seconds
    play no part), so it lies in the day: 0 <= q < 24. *)
Theorem hhmm_to_float_within_the_day (s : string) (q : Qc) :
  _hhmm_to_float s = Ok q →
  (∃ h m, 0 <= h <= 23 ∧ 0 <= m <= 59 ∧ q = Q2Qc ((60 * h + m) # 60))
  ∧ (Q2Qc 0 <= q)%Qc ∧ (q < Q2Qc (inject_Z 24))%Qc.
Proof.
  unfold _hhmm_to_float. intros H.
  apply rbind_ok in H as ([h m] & Hhm & [= <-]).
  apply strptime_HMS_range in Hhm as [Hh Hm]. rewrite hhmm_value.
  split; [by exists h, m|].
  unfold Qcle, Qclt, Q2Qc. simpl. rewrite !Qred_correct.
  unfold Qle, Qlt. simpl. lia.
Qed.

Lemma hhmm_to_float_within_the_day_witness :
  (∃ h m, 0 <= h <= 23 ∧ 0 <= m <= 59 ∧ hours 29 4 = Q2Qc ((60 * h + m) # 60))
  ∧ (Q2Qc 0 <= hours 29 4)%Qc ∧ (hours 29 4 < Q2Qc (inject_Z 24))%Qc.
Proof.
  apply (hhmm_to_float_within_the_day " 07:15:00"). reflexivity.
Defined.

(** *** Parsing a cell *)

Lemma hhmm_to_float_raises (s : string) (e : exn) :
  _hhmm_to_float s = Raise e → e = ValueError.
Proof.
  unfold _hhmm_to_float.
  destruct (Py.strptime_HMS (Py.strip s)) as [[h m]|e'] eqn:Hs; [done|].
  intros [= <-]. by eapply strptime_HMS_raises.
Qed.

Lemma parse_items_app (out : list (Qc * Qc)) (items1 items2 : list Py.value) :
  parse_items out (items1 ++ items2)
  = (out1 ← parse_items out items1; parse_items out1 items2).
Proof.
  revert out. induction items1 as [|rng rest IH]; intros out; [done|].
  simpl. destruct rng as [r| | | |]; try apply IH.
  destruct (Py.split_dash r) as [[start_s end_s]|]; [|apply IH].
  destruct (_hhmm_to_float start_s) as [a|]; [|done].
  destruct (_hhmm_to_float end_s) as [b|]; [|done].
  simpl. apply IH.
Qed.

(** X2.  Parsing goes through the items in order: the intervals of a
    list are those of its first part followed by those of the rest, and
    an exception in the first part is the exception of the whole. *)
Theorem parse_items_of_concatenation (items1 items2 : list Py.value) :
  parse_items [] (items1 ++ items2)
  = (out1 ← parse_items [] items1; out2 ← parse_items [] items2; Ok (out1 ++ out2)).
Proof.
  rewrite parse_items_app. destruct (parse_items [] items1) as [out1|e]; [|done].
  simpl. apply parse_items_acc.
Qed.

Lemma parse_items_is_ok (out : list (Qc * Qc)) (items : list Py.value) :
  is_ok (parse_items out items) = negb (existsb bad_range items).
Proof.
  revert out. induction items as [|rng rest IH]; intros out; [done|].
  simpl. unfold bad_range at 1.
  destruct rng as [r| | | |]; simpl; try apply IH.
  destruct (Py.split_dash r) as [[start_s end_s]|]; simpl; [|apply IH].
  destruct (_hhmm_to_float start_s) as [a|]; simpl; [|done].
  destruct (_hhmm_to_float end_s) as [b|]; simpl; [|done].
  apply IH.
Qed.

Lemma parse_items_length (out res : list (Qc * Qc)) (items : list Py.value) :
  parse_items out items = Ok res →
  length res
  = (length out + length (List.filter (λ it, negb (lacks_separator it)) items))%nat.
Proof.
  revert out. induction items as [|rng rest IH]; intros out.
  - simpl. intros [= <-]. lia.
  - simpl. destruct rng as [r| | | |]; simpl; try apply IH.
    destruct (Py.split_dash r) as [[start_s end_s]|]; simpl; [|apply IH].
    destruct (_hhmm_to_float start_s) as [a|]; simpl; [|done].
    destruct (_hhmm_to_float end_s) as [b|]; simpl; [|done].
    intros Hres. apply IH in Hres. rewrite length_app in Hres. simpl in Hres. lia.
Qed.

(** X3.  A cell whose text evaluates to a sequence parses without an
    exception exactly when no item with a separator has a malformed
    time; it then yields one interval per item with a separator, the
    other items contributing none. *)
Theorem list_cell_parses_iff_no_bad_range
    (literal_eval : string -> option Py.value) (s : string) (v : Py.value)
    (items : list Py.value) :
  literal_eval s = Some v → Py.iterate v = Ok items →
  is_ok (_parse_ranges literal_eval (CStr s)) = negb (existsb bad_range items)
  ∧ ∀ parsed, _parse_ranges literal_eval (CStr s) = Ok parsed →
              length parsed
              = length (List.filter (λ it, negb (lacks_separator it)) items).
Proof.
  intros Hs Hv. unfold _parse_ranges. rewrite Hs, Hv. simpl. split.
  - apply parse_items_is_ok.
  - intros parsed Hparsed. by apply parse_items_length in Hparsed.
Qed.

Lemma list_cell_parses_iff_no_bad_range_witness :
  is_ok (_parse_ranges literal_eval (CStr "['07:15:00 - 09:00:00', 'lunch', '1pm - 3pm']"))
  = negb (existsb bad_range [Py.VStr "07:15:00 - 09:00:00"; Py.VStr "lunch";
                             Py.VStr "1pm - 3pm"])
  ∧ ∀ parsed,
      _parse_ranges literal_eval (CStr "['07:15:00 - 09:00:00', 'lunch', '1pm - 3pm']")
      = Ok parsed →
      length parsed
      = length (List.filter (λ it, negb (lacks_separator it))
                  [Py.VStr "07:15:00 - 09:00:00"; Py.VStr "lunch"; Py.VStr "1pm - 3pm"]).
Proof.
  apply (list_cell_parses_iff_no_bad_range literal_eval _
           (Py.VList [Py.VStr "07:15:00 - 09:00:00"; Py.VStr "lunch";
                      Py.VStr "1pm - 3pm"]));
    reflexivity.
Defined.

Lemma parse_items_raises (out : list (Qc * Qc)) (items : list Py.value) (e : exn) :
  parse_items out items = Raise e → e = ValueError ∧ existsb bad_range items = true.
Proof.
  intros Hraise. split.
  - revert out Hraise. induction items as [|rng rest IH]; intros out; [done|].
    simpl. destruct rng as [r| | | |]; try apply IH.
    destruct (Py.split_dash r) as [[start_s end_s]|]; [|apply IH].
    destruct (_hhmm_to_float start_s) as [a|e1] eqn:Ha.
    + destruct (_hhmm_to_float end_s) as [b|e2] eqn:Hb; simpl; [apply IH|].
      intros [= <-]. by eapply hhmm_to_float_raises.
    + simpl. intros [= <-]. by eapply hhmm_to_float_raises.
  - pose proof (parse_items_is_ok out items) as Hok. rewrite Hraise in Hok.
    simpl in Hok. by destruct (existsb bad_range items).
Qed.

(** X4.  [_parse_ranges] raises only on a string cell whose text
    evaluates: a [TypeError] when the value cannot be iterated, a
    [ValueError] when one of its items has a separator and a malformed
    time.  It never raises a [KeyError], and never raises on a cell that
    is not a string or does not evaluate. *)
Theorem parse_ranges_raises_only
    (literal_eval : string -> option Py.value) (c : cell) (e : exn) :
  _parse_ranges literal_eval c = Raise e →
  ∃ s v, c = CStr s ∧ literal_eval s = Some v
         ∧ ((e = TypeError ∧ Py.iterate v = Raise TypeError)
            ∨ (e = ValueError
               ∧ ∃ items, Py.iterate v = Ok items ∧ existsb bad_range items = true)).
Proof.
  unfold _parse_ranges. destruct c as [|s|repr|text]; try done.
  destruct (literal_eval s) as [v|] eqn:Hs; [|done].
  intros Hraise. exists s, v. split; [done|]. split; [done|].
  destruct (Py.iterate v) as [items|e'] eqn:Hv; simpl in Hraise.
  - right. apply parse_items_raises in Hraise as [-> Hbad]. split; [done|].
    by exists items.
  - left. injection Hraise as <-.
    destruct v; simpl in Hv; try done; by injection Hv as <-.
Qed.

Lemma parse_ranges_raises_only_witness :
  ∃ s v, CStr "['7am - 9am']" = CStr s ∧ literal_eval s = Some v
         ∧ ((ValueError = TypeError ∧ Py.iterate v = Raise TypeError)
            ∨ (ValueError = ValueError
               ∧ ∃ items, Py.iterate v = Ok items ∧ existsb bad_range items = true)).
Proof.
  apply (parse_ranges_raises_only literal_eval (CStr "['7am - 9am']") ValueError).
  reflexivity.
Defined.

Lemma parse_items_characters (out : list (Qc * Qc)) (r : string) :
  parse_items out ((λ c, Py.VStr (String c EmptyString)) <$> list_ascii_of_string r)
  = match Py.split_dash r with
    | None => Ok out
    | Some _ => Raise ValueError
    end.
Proof.
  induction r as [|c r IH]; [done|].
  change (list_ascii_of_string (String c r)) with (c :: list_ascii_of_string r).
  rewrite fmap_cons. simpl. destruct (Ascii.eqb c "-") eqn:Hc; [done|].
  rewrite IH. by destruct (Py.split_dash r) as [[? ?]|].
Qed.

(** X5.  A cell whose text evaluates to a single string, rather than to
    a list of strings, is read character by character: without a ["-"]
    it parses to no interval, and with one it raises [ValueError], so a
    range written without the brackets aborts the run. *)
Theorem bare_string_cell
    (literal_eval : string -> option Py.value) (s r : string) :
  literal_eval s = Some (Py.VStr r) →
  _parse_ranges literal_eval (CStr s)
  = match Py.split_dash r with
    | None => Ok []
    | Some _ => Raise ValueError
    end.
Proof.
  intros Hs. unfold _parse_ranges. rewrite Hs. simpl. apply parse_items_characters.
Qed.

Lemma bare_string_cell_witness :
  _parse_ranges (λ _, Some (Py.VStr "07:00:00 - 09:00:00")) (CStr "'07:00:00 - 09:00:00'")
  = Raise ValueError.
Proof.
  apply (bare_string_cell (λ _, Some (Py.VStr "07:00:00 - 09:00:00"))
           "'07:00:00 - 09:00:00'" "07:00:00 - 09:00:00").
  reflexivity.
Defined.

(** *** Availability from intervals *)

Lemma is_available_app (l1 l2 : list (Qc * Qc)) (start end_ : Qc) :
  is_available (l1 ++ l2) start end_
  = is_available l1 start end_ || is_available l2 start end_.
Proof. unfold is_available. apply existsb_app. Qed.

(** X6.  Availability only grows with the declared intervals and only
    shrinks with the shift: it holds for a list of intervals exactly
    when it holds for one of its parts; a person available for a shift
    is available for every shift inside it; and an interval that ends
    before it starts makes nobody available for a shift that does not. *)
Theorem is_available_monotone (start end_ : Qc) :
  (∀ l1 l2, is_available (l1 ++ l2) start end_
            = is_available l1 start end_ || is_available l2 start end_)
  ∧ (∀ l start' end', (start <= start')%Qc → (end' <= end_)%Qc →
       is_available l start end_ = true → is_available l start' end' = true)
  ∧ (∀ a b, (b < a)%Qc → (start <= end_)%Qc →
       is_available [(a, b)] start end_ = false).
Proof.
  split; [intros l1 l2; apply is_available_app|]. split.
  - intros l start' end' Hs He Hav.
    apply is_available_iff in Hav as (a & b & Hin & Ha & Hb).
    apply is_available_iff. exists a, b. split; [done|]. split.
    + by apply Qcle_trans with start.
    + by apply Qcle_trans with end_.
  - intros a b Hba Hse.
    destruct (is_available [(a, b)] start end_) eqn:Hav; [|done].
    apply is_available_iff in Hav as (a' & b' & Hin & Ha & Hb).
    apply list_elem_of_singleton in Hin as [= -> ->].
    exfalso. apply (Qclt_not_le _ _ Hba).
    apply Qcle_trans with start; [done|]. by apply Qcle_trans with end_.
Qed.

(** *** Normalized names *)

Lemma lower_char_facts (c : ascii) :
  Py.islower c = true →
  Py.isupper c = false ∧ Py.isspace c = false
  ∧ Py.islower (Py.upper c) = false ∧ Py.isupper (Py.upper c) = true
  ∧ Py.isspace (Py.upper c) = false.
Proof. destruct c as [[] [] [] [] [] [] [] []]; vm_compute; intros; by try done. Qed.

Lemma upper_char_facts (c : ascii) :
  Py.isupper c = true →
  Py.islower c = false ∧ Py.isspace c = false
  ∧ Py.islower (Py.lower c) = true ∧ Py.isspace (Py.lower c) = false.
Proof. destruct c as [[] [] [] [] [] [] [] []]; vm_compute; intros; by try done. Qed.

Lemma title_from_idempotent (b : bool) (s : string) :
  Py.title_from b (Py.title_from b s) = Py.title_from b s.
Proof.
  revert b. induction s as [|c s IH]; intros b; [done|]. simpl.
  destruct (Py.islower c) eqn:Hl.
  - destruct (lower_char_facts c Hl) as (Hu & _ & Hlu & Huu & _).
    destruct b; simpl.
    + by rewrite Hl, IH.
    + by rewrite Hlu, Huu, IH.
  - destruct (Py.isupper c) eqn:Hu.
    + destruct (upper_char_facts c Hu) as (_ & _ & Hll & _).
      destruct b; simpl.
      * by rewrite Hll, IH.
      * by rewrite Hl, Hu, IH.
    + simpl. by rewrite Hl, Hu, IH.
Qed.

(** The first character that [title_from] writes is a blank exactly
    when the one it reads is. *)
Lemma title_from_cons (b : bool) (c : ascii) (s : string) :
  ∃ c' b', Py.title_from b (String c s) = String c' (Py.title_from b' s)
           ∧ Py.isspace c' = Py.isspace c
           ∧ (∀ s', Py.title_from b (String c s') = String c' (Py.title_from b' s'))
           ∧ (Py.isspace c = true → b' = false).
Proof.
  simpl. destruct (Py.islower c) eqn:Hl.
  - destruct (lower_char_facts c Hl) as (_ & Hs & _ & _ & Hsu).
    eexists _, _. split; [done|]. split; [|split; [done|by rewrite Hs]].
    destruct b; [done|]. by rewrite Hs, Hsu.
  - destruct (Py.isupper c) eqn:Hu.
    + destruct (upper_char_facts c Hu) as (_ & Hs & _ & Hsl).
      eexists _, _. split; [done|]. split; [|split; [done|by rewrite Hs]].
      destruct b; [|done]. by rewrite Hs, Hsl.
    + eexists _, _. split; [done|]. split; [done|]. split; done.
Qed.

Lemma lstrip_title (s : string) :
  Py.lstrip (Py.title_from false s) = Py.title_from false (Py.lstrip s).
Proof.
  induction s as [|c s IH]; [done|].
  destruct (title_from_cons false c s) as (c' & b' & Heq & Hsp & _ & Hb').
  rewrite Heq. simpl Py.lstrip. rewrite Hsp.
  destruct (Py.isspace c) eqn:Hc.
  - rewrite (Hb' eq_refl). exact IH.
  - by rewrite <- Heq.
Qed.

Lemma title_from_empty (b : bool) (s : string) :
  Py.title_from b s = EmptyString ↔ s = EmptyString.
Proof.
  destruct s as [|c s]; [done|].
  destruct (title_from_cons b c s) as (c' & b' & -> & _). done.
Qed.

Lemma rstrip_title (b : bool) (s : string) :
  Py.rstrip (Py.title_from b s) = Py.title_from b (Py.rstrip s).
Proof.
  revert b. induction s as [|c s IH]; intros b; [done|].
  destruct (title_from_cons b c s) as (c' & b' & Heq & Hsp & Hany & _).
  rewrite Heq. simpl Py.rstrip. rewrite (IH b'), Hsp.
  destruct (Py.rstrip s) as [|c0 r] eqn:Hr.
  - simpl. destruct (Py.isspace c); [done|]. rewrite Hany. done.
  - destruct (Py.title_from b' (String c0 r)) as [|c1 r1] eqn:Ht.
    + by apply title_from_empty in Ht.
    + rewrite Hany. by rewrite Ht.
Qed.

Lemma rstrip_idempotent (s : string) : Py.rstrip (Py.rstrip s) = Py.rstrip s.
Proof.
  induction s as [|c s IH]; [done|]. simpl.
  destruct (Py.rstrip s) as [|c0 r] eqn:Hr.
  - destruct (Py.isspace c) eqn:Hc; [done|]. simpl. by rewrite Hc.
  - simpl. simpl in IH. by rewrite IH.
Qed.

Lemma lstrip_rstrip_lstrip (s : string) :
  Py.lstrip (Py.rstrip (Py.lstrip s)) = Py.rstrip (Py.lstrip s).
Proof.
  induction s as [|c s IH]; [done|]. simpl Py.lstrip at 2 3.
  destruct (Py.isspace c) eqn:Hc; [exact IH|]. simpl.
  destruct (Py.rstrip s) as [|c0 r]; rewrite ?Hc; simpl; by rewrite Hc.
Qed.

Lemma strip_idempotent (s : string) : Py.strip (Py.strip s) = Py.strip s.
Proof. unfold Py.strip. by rewrite lstrip_rstrip_lstrip, rstrip_idempotent. Qed.

Lemma strip_title (s : string) : Py.strip (Py.title s) = Py.title (Py.strip s).
Proof. unfold Py.strip, Py.title. by rewrite lstrip_title, rstrip_title. Qed.

(** X7.  A normalized name written in ASCII is a fixed point of the
    normalization: it has no blank at either end, and trimming and
    title-casing it again gives it back.  So the keys of the matrix,
    read as names once more, are themselves.  (Outside ASCII
    [str.title] is not idempotent; such names are not covered.) *)
Theorem normalize_idempotent (c : cell) :
  is_ascii (str c) = true →
  Py.strip (normalize c) = normalize c
  ∧ Py.title (normalize c) = normalize c
  ∧ normalize (CStr (normalize c)) = normalize c.
Proof.
  intros _. unfold normalize. simpl str.
  assert (Py.strip (Py.title (Py.strip (str c))) = Py.title (Py.strip (str c))) as Hs
    by (by rewrite strip_title, strip_idempotent).
  assert (Py.title (Py.title (Py.strip (str c))) = Py.title (Py.strip (str c))) as Ht
    by apply title_from_idempotent.
  split; [done|]. split; [done|]. by rewrite Hs, Ht.
Qed.

(** A name with blanks around it and capitals in the wrong places. *)
Lemma normalize_idempotent_witness :
  Py.strip (normalize (CStr "  mary-ann o'NEIL ")) = normalize (CStr "  mary-ann o'NEIL ")
  ∧ Py.title (normalize (CStr "  mary-ann o'NEIL "))
    = normalize (CStr "  mary-ann o'NEIL ")
  ∧ normalize (CStr (normalize (CStr "  mary-ann o'NEIL ")))
    = normalize (CStr "  mary-ann o'NEIL ").
Proof.
  apply (normalize_idempotent (CStr "  mary-ann o'NEIL ")). reflexivity.
Defined.

(** *** Integer names in a table of numbers *)

Lemma length_title_from (b : bool) (s : string) :
  String.length (Py.title_from b s) = String.length s.
Proof.
  revert b. induction s as [|c s IH]; intros b; [done|]. simpl.
  destruct (Py.islower c); [simpl; by rewrite IH|].
  destruct (Py.isupper c); simpl; by rewrite IH.
Qed.

Lemma length_rstrip (s : string) :
  (String.length (Py.rstrip s) <= String.length s)%nat.
Proof.
  induction s as [|c s IH]; [done|]. simpl.
  destruct (Py.rstrip s) as [|c0 r].
  - destruct (Py.isspace c); simpl; lia.
  - simpl in *. lia.
Qed.

Lemma length_append (a b : string) :
  String.length (a ++ b) = (String.length a + String.length b)%nat.
Proof.
  induction a as [|c a IH]; [done|].
  change (S (String.length (a ++ b)) = S (String.length a + String.length b)).
  by rewrite IH.
Qed.

Lemma lstrip_float (t : string) :
  Py.lstrip (t ++ ".0") = (Py.lstrip t ++ ".0")%string.
Proof.
  induction t as [|c t IH]; [reflexivity|].
  change (Py.lstrip (String c (t ++ ".0")) = (Py.lstrip (String c t) ++ ".0")%string).
  simpl. destruct (Py.isspace c); [exact IH|reflexivity].
Qed.

Lemma rstrip_float (u : string) : Py.rstrip (u ++ ".0") = (u ++ ".0")%string.
Proof.
  induction u as [|c u IH]; [reflexivity|].
  change (Py.rstrip (String c (u ++ ".0")) = String c (u ++ ".0")).
  simpl. rewrite IH. by destruct u.
Qed.

(** The name that a row gives an integer is two characters longer
    than the integer's text without its leading blanks, and the name
    that the list gives it is no longer than that text. *)
Lemma length_integer_names (text : string) :
  String.length (normalize (CInt text)) = (String.length (Py.lstrip text) + 2)%nat
  ∧ (String.length (Py.title (Py.strip text)) <= String.length (Py.lstrip text))%nat.
Proof.
  unfold normalize, Py.title, Py.strip. simpl str.
  rewrite !length_title_from, lstrip_float, rstrip_float, length_append.
  split; [done|]. apply length_rstrip.
Qed.

Lemma largest {A : Type} (f : A → nat) (l : list A) :
  l ≠ [] → ∃ a, a ∈ l ∧ ∀ a', a' ∈ l → (f a' <= f a)%nat.
Proof.
  induction l as [|a l IH]; [done|]. intros _.
  destruct l as [|a0 l].
  - exists a. split; [by left|]. intros a' Ha'.
    apply list_elem_of_singleton in Ha' as ->. lia.
  - destruct IH as (m & Hm & Hmax); [done|].
    destruct (decide (f m <= f a)%nat) as [Hle|Hgt].
    + exists a. split; [by left|]. intros a' Ha'.
      apply elem_of_cons in Ha' as [->|Ha']; [lia|].
      specialize (Hmax a' Ha'). lia.
    + exists m. split; [by right|]. intros a' Ha'.
      apply elem_of_cons in Ha' as [->|Ha']; [lia|by apply Hmax].
Qed.

Lemma integer_names_cell (df : DataFrame) (row : gmap string cell) :
  integer_names df = true → row ∈ rows df →
  ∃ text, row !! name_col = Some (CInt text).
Proof.
  unfold integer_names. rewrite forallb_forall. intros Hall Hrow.
  specialize (Hall row (proj1 (list_elem_of_In _ _) Hrow)).
  destruct (row !! name_col) as [[| | |text]|]; try done. by exists text.
Qed.

(** In a table of numbers whose names are integers, the row loop
    looks some row up under a name that the student list does not
    hold. *)
Lemma integer_names_not_listed (df : DataFrame) :
  integer_names df = true → rows df ≠ [] →
  ∃ row, row ∈ rows df ∧ name_listed df row = false.
Proof.
  intros Hint Hrows.
  destruct (largest (λ row : gmap string cell,
                       match row !! name_col with
                       | Some (CInt text) => String.length (Py.lstrip text)
                       | _ => 0%nat
                       end) (rows df) Hrows) as (row & Hrow & Hmax).
  exists row. split; [done|].
  destruct (integer_names_cell df row Hint Hrow) as [text Hc].
  unfold name_listed. rewrite Hc. apply bool_decide_eq_false_2. intros Hin.
  apply elem_of_student_list in Hin as (row' & c' & Hrow' & Hc' & _ & Heq).
  destruct (integer_names_cell df row' Hint Hrow') as [text' Hc''].
  rewrite Hc'' in Hc'. injection Hc' as <-.
  specialize (Hmax row' Hrow'). rewrite Hc, Hc'' in Hmax.
  unfold astype_str in Heq. rewrite Hint in Heq.
  destruct (length_integer_names text) as [Hlen _].
  destruct (length_integer_names text') as [_ Hlen'].
  rewrite Heq in Hlen. lia.
Qed.

(** Everywhere else the list and the rows read a name alike. *)
Lemma listed_is_normalized (df : DataFrame) (c : cell) :
  integer_names df = false → Py.title (Py.strip (astype_str df c)) = normalize c.
Proof. intros Hint. unfold astype_str, normalize. rewrite Hint. by destruct c. Qed.

(** *** The loops of the ingestor *)

Lemma for_each_app {A S : Type} (body : S → A → result S) (st : S) (l1 l2 : list A) :
  for_each body st (l1 ++ l2) = (st1 ← for_each body st l1; for_each body st1 l2).
Proof.
  revert st. induction l1 as [|a l1 IH]; intros st; [done|].
  simpl. destruct (body st a) as [st'|e]; [|done]. simpl. apply IH.
Qed.

Lemma shift_step_row_entry (literal_eval : string -> option Py.value)
    (row : gmap string cell) (student : string)
    (m : gmap string (gmap ShiftId Z)) (sh : Shift) :
  shift_step literal_eval row student m sh
  = (v ← row_entry literal_eval row sh; set_entry m student (solver.shift_id sh) v).
Proof.
  destruct sh as [[[[label d] start] end_] req]. unfold shift_step, row_entry. simpl.
  destruct (DAY_ABBR_TO_COL d) as [col|]; [|done]. simpl.
  by destruct (_parse_ranges literal_eval (row_get row col)).
Qed.

Lemma row_entry_same_id (literal_eval : string -> option Py.value)
    (row : gmap string cell) (sh sh' : Shift) :
  solver.shift_id sh = solver.shift_id sh' →
  row_entry literal_eval row sh = row_entry literal_eval row sh'.
Proof.
  destruct sh as [[[[label d] start] end_] req].
  destruct sh' as [[[[label' d'] start'] end_'] req']. simpl.
  by intros [= -> -> ->].
Qed.

Lemma row_entry_zero_or_one (literal_eval : string -> option Py.value)
    (row : gmap string cell) (sh : Shift) (v : Z) :
  row_entry literal_eval row sh = Ok v → v = 0 ∨ v = 1.
Proof.
  destruct sh as [[[[label d] start] end_] req]. unfold row_entry.
  intros H. apply rbind_ok in H as (col & _ & H).
  apply rbind_ok in H as (parsed & _ & [= <-]).
  destruct (is_available parsed start end_); [by right|by left].
Qed.

Lemma row_entry_is_ok (literal_eval : string -> option Py.value)
    (row : gmap string cell) (sh : Shift) :
  is_ok (row_entry literal_eval row sh)
  = match DAY_ABBR_TO_COL (day_of sh) with
    | Ok col => is_ok (_parse_ranges literal_eval (row_get row col))
    | Raise _ => false
    end.
Proof.
  destruct sh as [[[[label d] start] end_] req]. unfold row_entry, day_of. simpl.
  destruct (DAY_ABBR_TO_COL d) as [col|]; [|done]. simpl.
  by destruct (_parse_ranges literal_eval (row_get row col)).
Qed.

(** The loop over the shifts for one row, when it runs through. *)
Lemma shift_loop_ok (literal_eval : string -> option Py.value)
    (row : gmap string cell) (student : string) (l : list Shift)
    (m : gmap string (gmap ShiftId Z)) (inner : gmap ShiftId Z) :
  m !! student = Some inner →
  (∀ sh, sh ∈ l → is_ok (row_entry literal_eval row sh) = true) →
  ∃ inner',
    for_each (shift_step literal_eval row student) m l = Ok (<[student := inner']> m)
    ∧ (∀ k, (∀ sh, sh ∈ l → solver.shift_id sh ≠ k) → inner' !! k = inner !! k)
    ∧ (∀ sh, sh ∈ l → ∃ v, row_entry literal_eval row sh = Ok v
                            ∧ inner' !! solver.shift_id sh = Some v).
Proof.
  revert m inner. induction l as [|sh l IH]; intros m inner Hm Hok.
  - exists inner. simpl. rewrite insert_id by done. split; [done|]. split; [done|].
    intros sh Hsh. by apply elem_of_nil in Hsh.
  - assert (is_ok (row_entry literal_eval row sh) = true) as Hsh
      by (apply Hok; by left).
    apply is_ok_true in Hsh as [v Hv].
    destruct (IH (<[student := <[solver.shift_id sh := v]> inner]> m)
                 (<[solver.shift_id sh := v]> inner))
      as (inner' & Hrun & Hkeep & Hnew).
    { by rewrite lookup_insert_eq. }
    { intros sh' Hsh'. apply Hok. by right. }
    exists inner'. rewrite for_each_cons, shift_step_row_entry, Hv. simpl.
    unfold set_entry. rewrite Hm. simpl. rewrite Hrun, insert_insert_eq.
    split; [done|]. split.
    + intros k Hk. rewrite Hkeep.
      * rewrite lookup_insert_ne; [done|]. apply Hk. by left.
      * intros sh' Hsh'. apply Hk. by right.
    + intros sh' Hsh'.
      destruct (decide (sh' ∈ l)) as [Hin|Hnotin]; [by apply Hnew|].
      apply elem_of_cons in Hsh' as [->|Hsh']; [|done].
      exists v. split; [done|].
      destruct (decide (solver.shift_id sh ∈ solver.shift_id <$> l)) as [Hold|Hfresh].
      * apply list_elem_of_fmap in Hold as (sh'' & Hid & Hin'').
        destruct (Hnew sh'' Hin'') as (v'' & Hv'' & Hlook).
        rewrite <- (row_entry_same_id _ _ _ _ Hid), Hv in Hv''. injection Hv'' as <-.
        by rewrite Hid.
      * rewrite Hkeep; [by rewrite lookup_insert_eq|].
        intros sh'' Hin'' Hid. apply Hfresh. rewrite <- Hid.
        by apply list_elem_of_fmap_2.
Qed.

(** The loop over the shifts for one row runs through only if every
    entry can be computed and the person is a key of the matrix. *)
Lemma shift_loop_ok_inv (literal_eval : string -> option Py.value)
    (row : gmap string cell) (student : string) (l : list Shift)
    (m m' : gmap string (gmap ShiftId Z)) :
  for_each (shift_step literal_eval row student) m l = Ok m' →
  (∀ sh, sh ∈ l → is_ok (row_entry literal_eval row sh) = true)
  ∧ (l ≠ [] → is_Some (m !! student)).
Proof.
  revert m. induction l as [|sh l IH]; intros m Hrun.
  - split; [|done]. intros sh Hsh. by apply elem_of_nil in Hsh.
  - rewrite for_each_cons in Hrun. apply rbind_ok in Hrun as (m1 & Hstep & Hrest).
    rewrite shift_step_row_entry in Hstep.
    apply rbind_ok in Hstep as (v & Hv & Hset).
    destruct (IH m1 Hrest) as [Hall _]. split.
    + intros sh' Hsh'. apply elem_of_cons in Hsh' as [->|Hsh']; [|by apply Hall].
      by rewrite Hv.
    + intros _. unfold set_entry in Hset.
      destruct (m !! student); [by eexists|done].
Qed.

Lemma SHIFTS_not_empty : SHIFTS ≠ [].
Proof. done. Qed.

(** One row, when it runs through: the person's entries are rewritten
    from the row, and nobody else's are touched. *)
Lemma row_step_ok_inv (literal_eval : string -> option Py.value)
    (m m' : gmap string (gmap ShiftId Z)) (row : gmap string cell) :
  row_step literal_eval m row = Ok m' →
  ∃ c inner inner',
    row !! name_col = Some c ∧ m !! normalize c = Some inner
    ∧ m' = <[normalize c := inner']> m
    ∧ (∀ sh, sh ∈ SHIFTS → is_ok (row_entry literal_eval row sh) = true)
    ∧ (∀ k, k ∉ solver.shift_id <$> SHIFTS → inner' !! k = inner !! k)
    ∧ (∀ sh, sh ∈ SHIFTS → ∃ v, row_entry literal_eval row sh = Ok v
                                 ∧ inner' !! solver.shift_id sh = Some v).
Proof.
  unfold row_step, row_name. destruct (row !! name_col) as [c|] eqn:Hc; [|done].
  intros Hrun.
  change (for_each (shift_step literal_eval row (normalize c)) m SHIFTS = Ok m') in Hrun.
  destruct (shift_loop_ok_inv _ _ _ _ _ _ Hrun) as [Hall Hin].
  destruct (Hin SHIFTS_not_empty) as [inner Hinner].
  destruct (shift_loop_ok literal_eval row (normalize c) SHIFTS m inner Hinner Hall)
    as (inner' & Hrun' & Hkeep & Hnew).
  rewrite Hrun in Hrun'. injection Hrun' as ->.
  exists c, inner, inner'. repeat (split; [done|]). split; [|done].
  intros k Hk. apply Hkeep. intros sh Hsh <-. apply Hk.
  by apply list_elem_of_fmap_2.
Qed.

Lemma for_each_ok_steps {A S : Type} (P : S → Prop) (body : S → A → result S)
    (l : list A) (st st' : S) :
  (∀ a s s', P s → body s a = Ok s' → P s') →
  P st → for_each body st l = Ok st' →
  ∀ a, a ∈ l → ∃ s s', P s ∧ body s a = Ok s'.
Proof.
  intros Hbody. revert st. induction l as [|a l IH]; intros st HP Hrun a' Ha'.
  - by apply elem_of_nil in Ha'.
  - rewrite for_each_cons in Hrun. apply rbind_ok in Hrun as (s1 & H1 & Hrest).
    apply elem_of_cons in Ha' as [->|Ha'].
    + by exists st, s1.
    + apply (IH s1); [by eapply Hbody|done..].
Qed.

Lemma last_occurrence {A : Type} (P : A → bool) (l : list A) :
  (∃ x, x ∈ l ∧ P x = true) →
  ∃ before x after, l = before ++ x :: after ∧ P x = true
                    ∧ ∀ y, y ∈ after → P y = false.
Proof.
  induction l as [|a l IH]; intros (x & Hx & HPx); [by apply elem_of_nil in Hx|].
  destruct (existsb P l) eqn:Hl.
  - apply existsb_exists in Hl as (y & Hy & HPy).
    destruct IH as (before & z & after & -> & HPz & Hafter).
    { exists y. split; [by apply list_elem_of_In|done]. }
    by exists (a :: before), z, after.
  - assert (∀ y, y ∈ l → P y = false) as Hnone.
    { intros y Hy. destruct (P y) eqn:HPy; [|done].
      assert (existsb P l = true) as Hex; [|by rewrite Hl in Hex].
      apply existsb_exists. exists y. split; [by apply list_elem_of_In|done]. }
    apply elem_of_cons in Hx as [->|Hx].
    + by exists [], a, l.
    + by rewrite (Hnone x Hx) in HPx.
Qed.

Lemma matrix_init_lookup (names : list string) (m : gmap string (gmap ShiftId Z))
    (s : string) (inner : gmap ShiftId Z) :
  (∀ s' inner', m !! s' = Some inner' → inner' = ∅) →
  foldl (λ m s, <[s := ∅]> m) m names !! s = Some inner → inner = ∅.
Proof.
  revert m. induction names as [|name names IH]; intros m Hm; simpl; [apply Hm|].
  apply IH. intros s' inner'. destruct (decide (name = s')) as [->|Hne].
  - rewrite lookup_insert_eq. by intros [= <-].
  - rewrite lookup_insert_ne by done. apply Hm.
Qed.

Section Load.

Variable literal_eval : string -> option Py.value.
Variable df : DataFrame.

Local Abbreviation matrix0 :=
  (foldl (λ m s, <[s := ∅]> m) (∅ : gmap string (gmap ShiftId Z)) (student_list df)).

Lemma matrix0_dom : dom matrix0 = list_to_set (student_list df).
Proof. rewrite matrix_init_dom. set_solver. Qed.

Lemma day_cells_parse_iff (row : gmap string cell) :
  day_cells_parse literal_eval row = true ↔
  ∀ sh, sh ∈ SHIFTS → is_ok (row_entry literal_eval row sh) = true.
Proof.
  unfold day_cells_parse. rewrite forallb_forall. split.
  - intros H sh Hsh. rewrite row_entry_is_ok. apply H. by apply list_elem_of_In.
  - intros H sh Hsh. rewrite <- row_entry_is_ok. apply H. by apply list_elem_of_In.
Qed.

Lemma name_listed_iff (row : gmap string cell) :
  name_listed df row = true ↔
  ∃ c, row !! name_col = Some c ∧ normalize c ∈ student_list df.
Proof.
  unfold name_listed. destruct (row !! name_col) as [c|]; split.
  - intros H. exists c. split; [done|]. by apply bool_decide_eq_true_1 in H.
  - intros (c' & [= <-] & H). by apply bool_decide_eq_true_2.
  - done.
  - by intros (c' & [=] & _).
Qed.

(** Whatever the loop over the rows returns, each row ran through. *)
Lemma rows_ran_through (l : list (gmap string cell))
    (m' : gmap string (gmap ShiftId Z)) :
  for_each (row_step literal_eval) matrix0 l = Ok m' →
  ∀ row, row ∈ l →
         name_listed df row = true ∧ day_cells_parse literal_eval row = true.
Proof.
  intros Hrun row Hrow.
  assert (∀ a s s', dom s = (list_to_set (student_list df) : gset string) →
            row_step literal_eval s a = Ok s' →
            dom s' = (list_to_set (student_list df) : gset string)) as Hbody.
  { intros a s s' Hs Hstep. rewrite <- Hs. by eapply row_step_dom. }
  destruct (for_each_ok_steps _ _ l matrix0 m' Hbody matrix0_dom Hrun row Hrow)
    as (m1 & m2 & Hdom & Hstep).
  apply row_step_ok_inv in Hstep
    as (c & inner & inner' & Hc & Hinner & _ & Hall & _).
  split.
  - apply name_listed_iff. exists c. split; [done|].
    apply (elem_of_dom_2 (D := gset string)) in Hinner. rewrite Hdom in Hinner.
    by apply elem_of_list_to_set in Hinner.
  - by apply day_cells_parse_iff.
Qed.

Lemma rows_run_through (l : list (gmap string cell))
    (m : gmap string (gmap ShiftId Z)) :
  dom m = list_to_set (student_list df) →
  (∀ row, row ∈ l →
          name_listed df row = true ∧ day_cells_parse literal_eval row = true) →
  ∃ m', for_each (row_step literal_eval) m l = Ok m'.
Proof.
  revert m. induction l as [|row l IH]; intros m Hdom Hrows; [by exists m|].
  destruct (Hrows row) as [Hname Hcells]; [by left|].
  apply name_listed_iff in Hname as (c & Hc & Hin).
  assert (is_Some (m !! normalize c)) as [inner Hinner].
  { apply (elem_of_dom (D := gset string)). rewrite Hdom.
    by apply elem_of_list_to_set. }
  destruct (shift_loop_ok literal_eval row (normalize c) SHIFTS m inner Hinner)
    as (inner' & Hrun & _); [by apply day_cells_parse_iff|].
  assert (row_step literal_eval m row = Ok (<[normalize c := inner']> m)) as Hstep.
  { unfold row_step, row_name. rewrite Hc. exact Hrun. }
  destruct (IH (<[normalize c := inner']> m)) as [m' Hm'].
  - rewrite <- Hdom. by eapply row_step_dom.
  - intros row' Hrow'. apply Hrows. by right.
  - exists m'. by rewrite for_each_cons, Hstep.
Qed.


(** X9.  A row whose name is missing stops ingestion, unless some
    listed person happens to be called "Nan": the row is dropped from
    the student list but not from the loop, where its name reads
    "Nan" and is no key of the matrix. *)
Theorem nameless_row_stops_ingestion (row : gmap string cell) :
  row ∈ rows df → row !! name_col = Some CNaN →
  "Nan"%string ∉ student_list df →
  ∃ e, load_input_from_excel literal_eval df = Raise e.
Proof.
  intros Hrow Hnan Hnot.
  destruct (load_input_from_excel literal_eval df) as [data|e] eqn:Hload;
    [|by exists e].
  apply load_ok_inv in Hload as (_ & _ & _ & Hrun).
  destruct (rows_ran_through _ _ Hrun row Hrow) as [Hname _].
  apply name_listed_iff in Hname as (c & Hc & Hin).
  rewrite Hnan in Hc. injection Hc as <-. by destruct Hnot.
Qed.

(** Every entry of the matrix is under a shift of the catalog. *)
Lemma matrix_keys_in_catalog (l : list (gmap string cell))
    (m' : gmap string (gmap ShiftId Z)) :
  for_each (row_step literal_eval) matrix0 l = Ok m' →
  ∀ s inner k, m' !! s = Some inner → k ∉ solver.shift_id <$> SHIFTS →
               inner !! k = None.
Proof.
  apply (for_each_ok_inv
           (λ m, ∀ s inner k, m !! s = Some inner → k ∉ solver.shift_id <$> SHIFTS →
                              inner !! k = None)).
  - intros row m1 m2 _ Hm1 Hstep.
    apply row_step_ok_inv in Hstep
      as (c & inner & inner' & _ & Hinner & -> & _ & Hkeep & _).
    intros s inner0 k. destruct (decide (normalize c = s)) as [<-|Hne].
    + rewrite lookup_insert_eq. intros [= <-] Hk. rewrite Hkeep by done.
      by apply (Hm1 (normalize c)).
    + rewrite lookup_insert_ne by done. apply Hm1.
  - intros s inner k Hs _.
    apply matrix_init_lookup in Hs as ->; [done|].
    intros s' inner'. by rewrite lookup_empty.
Qed.

(** The entries of a person come from the last row with that name. *)
Lemma last_row_entries (before after : list (gmap string cell))
    (row : gmap string cell) (c : cell) (m m' : gmap string (gmap ShiftId Z)) :
  for_each (row_step literal_eval) m (before ++ row :: after) = Ok m' →
  row !! name_col = Some c →
  (∀ row' c', row' ∈ after → row' !! name_col = Some c' →
              normalize c' ≠ normalize c) →
  ∃ inner, m' !! normalize c = Some inner
           ∧ ∀ sh, sh ∈ SHIFTS →
                   ∃ v, row_entry literal_eval row sh = Ok v
                        ∧ inner !! solver.shift_id sh = Some v.
Proof.
  intros Hrun Hc Hafter. rewrite for_each_app in Hrun.
  apply rbind_ok in Hrun as (m1 & _ & Hrun). rewrite for_each_cons in Hrun.
  apply rbind_ok in Hrun as (m2 & Hstep & Hrest).
  apply row_step_ok_inv in Hstep
    as (c0 & inner & inner' & Hc0 & _ & -> & _ & _ & Hnew).
  rewrite Hc in Hc0. injection Hc0 as <-.
  exists inner'. split; [|done]. revert Hrest.
  apply (for_each_ok_inv (λ m, m !! normalize c = Some inner')).
  - intros row' s s' Hrow' Hs Hstep'.
    apply row_step_ok_inv in Hstep' as (c' & i & i' & Hc' & _ & -> & _).
    rewrite lookup_insert_ne; [done|]. by apply (Hafter row').
  - by rewrite lookup_insert_eq.
Qed.

(** X10.  In the data that ingestion returns, the availability of a
    person for a shift of the catalog is the one computed from the last
    row that carries the person's normalized name: 1 when one interval
    of that row's cell for the day contains the shift, 0 otherwise.
    Earlier rows with the same name leave no trace. *)
Theorem last_row_with_a_name_wins
    (data : InputData) (before after : list (gmap string cell))
    (row : gmap string cell) (c : cell) :
  load_input_from_excel literal_eval df = Ok data →
  rows df = before ++ row :: after →
  row !! name_col = Some c →
  (∀ row' c', row' ∈ after → row' !! name_col = Some c' →
              normalize c' ≠ normalize c) →
  ∃ inner, availability_matrix data !! normalize c = Some inner
           ∧ ∀ sh, sh ∈ SHIFTS →
                   ∃ v, row_entry literal_eval row sh = Ok v
                        ∧ inner !! solver.shift_id sh = Some v.
Proof.
  intros Hload Hrows Hc Hafter.
  apply load_ok_inv in Hload as (_ & _ & _ & Hrun). rewrite Hrows in Hrun.
  by eapply last_row_entries.
Qed.

(** X11.  In the data that ingestion returns, every listed person has
    a row of the matrix, and that row holds an entry, 0 or 1, for each
    shift of the catalog and for nothing else. *)
Theorem matrix_complete_and_boolean (data : InputData) (s : string) :
  load_input_from_excel literal_eval df = Ok data →
  s ∈ students data →
  ∃ inner, availability_matrix data !! s = Some inner
           ∧ ∀ k, (k ∈ solver.shift_id <$> SHIFTS →
                   inner !! k = Some 0 ∨ inner !! k = Some 1)
                  ∧ (k ∉ solver.shift_id <$> SHIFTS → inner !! k = None).
Proof.
  intros Hload Hs.
  pose proof Hload as Hload'.
  apply load_ok_inv in Hload' as (_ & Hst & _ & Hrun).
  rewrite Hst in Hs. apply elem_of_student_list in Hs as (row0 & c0 & Hrow0 & Hc0 & _ & ->).
  destruct (integer_names df) eqn:Hint.
  { destruct (integer_names_not_listed df Hint) as (row & Hrow & Hnot).
    - intros Hnil. rewrite Hnil in Hrow0. by apply elem_of_nil in Hrow0.
    - destruct (rows_ran_through _ _ Hrun row Hrow) as [Hname _].
      by rewrite Hname in Hnot. }
  rewrite (listed_is_normalized df c0 Hint).
  destruct (last_occurrence
              (λ row, match row !! name_col with
                      | Some c => bool_decide (normalize c = normalize c0)
                      | None => false
                      end) (rows df))
    as (before & row & after & Hrows & Hrow & Hafter).
  { exists row0. split; [done|]. rewrite Hc0. by apply bool_decide_eq_true_2. }
  destruct (row !! name_col) as [c|] eqn:Hc; [|done].
  apply bool_decide_eq_true_1 in Hrow.
  rewrite Hrows in Hrun.
  destruct (last_row_entries before after row c _ _ Hrun Hc) as (inner & Hinner & Hnew).
  { intros row' c' Hrow' Hc' Heq. specialize (Hafter row' Hrow').
    rewrite Hc' in Hafter. apply bool_decide_eq_false_1 in Hafter.
    apply Hafter. by rewrite Heq. }
  rewrite Hrow in Hinner. exists inner. split; [done|]. intros k. split.
  - intros Hk. apply list_elem_of_fmap in Hk as (sh & -> & Hsh).
    destruct (Hnew sh Hsh) as (v & Hv & ->).
    apply row_entry_zero_or_one in Hv as [-> | ->]; [by left|by right].
  - rewrite <- Hrows in Hrun. by eapply matrix_keys_in_catalog.
Qed.

End Load.

(** The table with a nameless second row. *)
Lemma nameless_row_stops_ingestion_witness :
  ∃ e, load_input_from_excel literal_eval nameless_row = Raise e.
Proof.
  apply (nameless_row_stops_ingestion literal_eval nameless_row
           {[ name_col := CNaN; "MONDAY"%string := CStr "[]" ]}).
  - right. by left.
  - reflexivity.
  - intros Hin. apply list_elem_of_singleton in Hin. discriminate Hin.
Defined.

(** Bob's second row, with no free time, replaces his first. *)
Lemma last_row_with_a_name_wins_witness :
  ∃ data, load_input_from_excel literal_eval bob_twice = Ok data
    ∧ ∃ inner, availability_matrix data !! normalize (CStr " Bob") = Some inner
        ∧ ∀ sh, sh ∈ SHIFTS →
                ∃ v, row_entry literal_eval
                       {[ name_col := CStr " Bob"; "MONDAY"%string := CStr "[]" ]} sh
                     = Ok v
                     ∧ inner !! solver.shift_id sh = Some v.
Proof.
  assert (is_ok (load_input_from_excel literal_eval bob_twice) = true) as Hok
    by reflexivity.
  destruct (load_input_from_excel literal_eval bob_twice) as [data|e] eqn:Hload;
    [|discriminate Hok].
  exists data. split; [reflexivity|].
  apply (last_row_with_a_name_wins literal_eval bob_twice data
           [ {[ name_col := CStr "bob";
                "MONDAY"%string := CStr "['07:00:00 - 12:00:00']" ]} ] []).
  - exact Hload.
  - reflexivity.
  - reflexivity.
  - intros row' c' Hrow'. destruct (proj1 (elem_of_nil row') Hrow').
Defined.

Lemma matrix_complete_and_boolean_witness :
  ∃ data, load_input_from_excel literal_eval bob_twice = Ok data
    ∧ ∃ inner, availability_matrix data !! "Bob"%string = Some inner
        ∧ ∀ k, (k ∈ solver.shift_id <$> SHIFTS →
                inner !! k = Some 0 ∨ inner !! k = Some 1)
               ∧ (k ∉ solver.shift_id <$> SHIFTS → inner !! k = None).
Proof.
  assert (is_ok (load_input_from_excel literal_eval bob_twice) = true) as Hok
    by reflexivity.
  destruct (load_input_from_excel literal_eval bob_twice) as [data|e] eqn:Hload;
    [|discriminate Hok].
  exists data. split; [reflexivity|].
  apply (matrix_complete_and_boolean literal_eval bob_twice data "Bob" Hload).
  destruct (load_ok_inv _ _ _ Hload) as (_ & -> & _). by left.
Defined.

(** *** Integer names *)





(** *** Availability in the returned matrix *)

Lemma row_entry_inv (literal_eval : string -> option Py.value)
    (row : gmap string cell) (sh : Shift) (v : Z) :
  row_entry literal_eval row sh = Ok v →
  ∃ col parsed,
    DAY_ABBR_TO_COL (day_of sh) = Ok col
    ∧ _parse_ranges literal_eval (row_get row col) = Ok parsed
    ∧ v = if is_available parsed (solver.shift_id sh).1.2 (solver.shift_id sh).2
          then 1 else 0.
Proof.
  destruct sh as [[[[label d] start] end_] req]. unfold row_entry, day_of. simpl.
  intros H. apply rbind_ok in H as (col & Hcol & H).
  apply rbind_ok in H as (parsed & Hparsed & [= <-]).
  by exists col, parsed.
Qed.

(** C4 (as the code has it).  In the data that ingestion returns, the
    availability entry of a person for a shift [s, e) of the catalog
    is 1 or 0, and it is 1 exactly when one single parsed interval
    (a, b), in the cell of the shift's day of the last row that carries
    the person's normalized name, has a <= s and e <= b.  When no single
    interval of that cell contains the shift (partial cover, or a cover
    only by several intervals together) the entry is 0. *)
Theorem availability_iff_interval_of_last_row
    (literal_eval : string -> option Py.value) (df : DataFrame) (data : InputData)
    (before after : list (gmap string cell)) (row : gmap string cell) (c : cell)
    (sh : Shift) :
  load_input_from_excel literal_eval df = Ok data →
  rows df = before ++ row :: after →
  row !! name_col = Some c →
  (∀ row' c', row' ∈ after → row' !! name_col = Some c' →
              normalize c' ≠ normalize c) →
  sh ∈ SHIFTS →
  ∃ col parsed inner v,
    DAY_ABBR_TO_COL (day_of sh) = Ok col
    ∧ _parse_ranges literal_eval (row_get row col) = Ok parsed
    ∧ availability_matrix data !! normalize c = Some inner
    ∧ inner !! solver.shift_id sh = Some v
    ∧ (v = 1 ∨ v = 0)
    ∧ (v = 1 ↔ ∃ a b, (a, b) ∈ parsed ∧ (a <= (solver.shift_id sh).1.2)%Qc
                      ∧ ((solver.shift_id sh).2 <= b)%Qc)
    ∧ ((∀ a b, (a, b) ∈ parsed →
               ¬ ((a <= (solver.shift_id sh).1.2)%Qc ∧ ((solver.shift_id sh).2 <= b)%Qc))
       → v = 0).
Proof.
  intros Hload Hrows Hc Hafter Hsh.
  apply load_ok_inv in Hload as (_ & _ & _ & Hrun). rewrite Hrows in Hrun.
  destruct (last_row_entries literal_eval before after row c _ _ Hrun Hc Hafter)
    as (inner & Hinner & Hnew).
  destruct (Hnew sh Hsh) as (v & Hv & Hlook).
  apply row_entry_inv in Hv as (col & parsed & Hcol & Hparsed & Hv).
  exists col, parsed, inner, v. repeat (split; [done|]).
  pose proof (is_available_iff parsed (solver.shift_id sh).1.2 (solver.shift_id sh).2)
    as Hiff.
  destruct (is_available parsed (solver.shift_id sh).1.2 (solver.shift_id sh).2);
    subst v.
  - split; [by left|]. split.
    + split; [intros _; by apply Hiff | done].
    + intros Hno. destruct (proj1 Hiff eq_refl) as (a & b & Hin & Hab).
      by destruct (Hno a b Hin).
  - split; [by right|]. split; [|done].
    split; [done|]. intros Hex. apply Hiff in Hex. discriminate.
Qed.

(** Bob's one row, free from 7:00 to 12:00 on Monday, and the
    catalog's Monday shift from 9:00 to 12:00. *)
Lemma availability_iff_interval_of_last_row_witness :
  ∃ data, load_input_from_excel literal_eval no_tuesday = Ok data
    ∧ ∃ col parsed inner v,
        DAY_ABBR_TO_COL (day_of ("S2"%string, "Mon"%string, hours 9 1, hours 12 1, 4))
        = Ok col
        ∧ _parse_ranges literal_eval
            (row_get {[ name_col := CStr "bob";
                        "MONDAY"%string := CStr "['07:00:00 - 12:00:00']" ]} col)
          = Ok parsed
        ∧ availability_matrix data !! normalize (CStr "bob") = Some inner
        ∧ inner !! ("Mon"%string, hours 9 1, hours 12 1) = Some v
        ∧ (v = 1 ∨ v = 0)
        ∧ (v = 1 ↔ ∃ a b, (a, b) ∈ parsed ∧ (a <= hours 9 1)%Qc ∧ (hours 12 1 <= b)%Qc)
        ∧ ((∀ a b, (a, b) ∈ parsed → ¬ ((a <= hours 9 1)%Qc ∧ (hours 12 1 <= b)%Qc))
           → v = 0).
Proof.
  assert (is_ok (load_input_from_excel literal_eval no_tuesday) = true) as Hok
    by reflexivity.
  destruct (load_input_from_excel literal_eval no_tuesday) as [data|e] eqn:Hload;
    [|discriminate Hok].
  exists data. split; [reflexivity|].
  apply (availability_iff_interval_of_last_row literal_eval no_tuesday data [] []
           {[ name_col := CStr "bob";
              "MONDAY"%string := CStr "['07:00:00 - 12:00:00']" ]}
           (CStr "bob") ("S2"%string, "Mon"%string, hours 9 1, hours 12 1, 4)).
  - exact Hload.
  - reflexivity.
  - reflexivity.
  - intros row' c' Hrow'. destruct (proj1 (elem_of_nil row') Hrow').
  - right. by left.
Defined.

(** C4, refuted as stated.  Bob has two rows.  The first declares him
    free on Monday from 7:00 to 12:00, one interval that contains the
    shift from 9:00 to 12:00; the second declares nothing.  Ingestion
    returns its data, and Bob's entry for that shift is 0: the second
    row has overwritten the first. *)
Lemma interval_of_an_earlier_row_is_lost :
  (∃ row, row ∈ rows bob_twice
          ∧ row !! name_col = Some (CStr "bob")
          ∧ normalize (CStr "bob") = "Bob"%string
          ∧ _parse_ranges literal_eval (row_get row "MONDAY")
            = Ok [(hours 7 1, hours 12 1)]
          ∧ is_available [(hours 7 1, hours 12 1)] (hours 9 1) (hours 12 1) = true)
  ∧ (data ← load_input_from_excel literal_eval bob_twice;
     Ok (availability_matrix data !! "Bob"%string
           ≫= (λ inner, inner !! ("Mon"%string, hours 9 1, hours 12 1))))
    = Ok (Some 0).
Proof.
  split; [|reflexivity].
  exists {[ name_col := CStr "bob";
            "MONDAY"%string := CStr "['07:00:00 - 12:00:00']" ]}.
  split; [by left|]. repeat split; reflexivity.
Qed.

(** *** A weekday column that the table does not have *)

(** A row whose name is a string is looked up under a listed name. *)
Lemma string_name_is_listed (df : DataFrame) (row : gmap string cell) (s : string) :
  row ∈ rows df → row !! name_col = Some (CStr s) → name_listed df row = true.
Proof.
  intros Hrow Hc. apply name_listed_iff. exists (CStr s). split; [done|].
  apply elem_of_student_list. by exists row, (CStr s).
Qed.

Section MissingColumn.

Variable literal_eval : string -> option Py.value.
Variable df : DataFrame.
Variables d col : string.

Hypothesis literal_eval_empty : literal_eval "" = None.
Hypothesis frame : frame_ok df = true.
Hypothesis fit : rows_fit literal_eval df = true.
Hypothesis day_col : DAY_ABBR_TO_COL d = Ok col.
Hypothesis absent : col ∉ columns df.

Lemma row_lookup_absent (row : gmap string cell) (c : string) :
  row ∈ rows df → c ∉ columns df → row !! c = None.
Proof.
  intros Hrow Hc. pose proof frame as Hframe.
  unfold frame_ok in Hframe. rewrite forallb_forall in Hframe.
  specialize (Hframe row (proj1 (list_elem_of_In _ _) Hrow)).
  apply bool_decide_eq_true_1 in Hframe.
  apply (not_elem_of_dom (D := gset string)). rewrite Hframe.
  by rewrite elem_of_list_to_set.
Qed.

Lemma missing_cell_parses_to_empty (row : gmap string cell) (c : string) :
  row ∈ rows df → c ∉ columns df →
  row_get row c = CStr "" ∧ _parse_ranges literal_eval (row_get row c) = Ok [].
Proof.
  intros Hrow Hc. unfold row_get. rewrite (row_lookup_absent row c Hrow Hc).
  simpl. by rewrite literal_eval_empty.
Qed.

(** Every row runs through the loop. *)
Lemma row_fits (row : gmap string cell) :
  row ∈ rows df →
  name_listed df row = true ∧ day_cells_parse literal_eval row = true.
Proof.
  intros Hrow. pose proof fit as Hfit.
  unfold rows_fit in Hfit. rewrite forallb_forall in Hfit.
  specialize (Hfit row (proj1 (list_elem_of_In _ _) Hrow)).
  apply andb_true_iff in Hfit as [Hname Hcells]. split; [done|].
  unfold day_cells_parse. unfold present_day_cells_parse in Hcells.
  rewrite forallb_forall in Hcells. apply forallb_forall. intros sh Hsh.
  specialize (Hcells sh Hsh).
  destruct (DAY_ABBR_TO_COL (day_of sh)) as [col'|]; [|done].
  apply orb_true_iff in Hcells as [Hmissing|Hparses]; [|done].
  apply negb_true_iff, bool_decide_eq_false_1 in Hmissing.
  by rewrite (proj2 (missing_cell_parses_to_empty row col' Hrow Hmissing)).
Qed.

(** The entry that a row gives a shift of the missing day. *)
Lemma missing_day_entry (row : gmap string cell) (sh : Shift) :
  row ∈ rows df → day_of sh = d → row_entry literal_eval row sh = Ok 0.
Proof.
  intros Hrow Hday.
  destruct sh as [[[[label d'] start] end_] req]. unfold day_of in Hday.
  simpl in Hday. subst d'. unfold row_entry. rewrite day_col. simpl.
  by rewrite (proj2 (missing_cell_parses_to_empty row col Hrow absent)).
Qed.

(** C10.  When the table has no column for a weekday, and nothing else
    stops the run (the name of every row is a listed one, as a name that
    is a string always is, and the weekday cells that are present
    parse), the missing cell of every row is read
    as the empty string, which does not evaluate and parses to the empty
    interval list; ingestion returns its data, and for every row of the
    table the person it names is listed, is a key of the matrix, and has
    the entry 0 for each of that day's shifts. *)
Theorem missing_day_column_means_unavailable :
  name_col ∈ columns df →
  (∀ row, row ∈ rows df →
          row_get row col = CStr ""
          ∧ _parse_ranges literal_eval (row_get row col) = Ok [])
  ∧ ∃ data, load_input_from_excel literal_eval df = Ok data
      ∧ ∀ row c, row ∈ rows df → row !! name_col = Some c →
          normalize c ∈ students data
          ∧ ∃ inner, availability_matrix data !! normalize c = Some inner
              ∧ ∀ sh, sh ∈ SHIFTS → day_of sh = d →
                      inner !! solver.shift_id sh = Some 0.
Proof.
  intros Hname. split.
  { intros row Hrow. by apply missing_cell_parses_to_empty. }
  destruct (rows_run_through literal_eval df (rows df) _ (matrix0_dom literal_eval df) row_fits)
    as [m' Hrun].
  exists {| students := student_list df; availability_matrix := m'; shifts := SHIFTS |}.
  split.
  { unfold load_input_from_excel. rewrite bool_decide_eq_true_2 by done.
    by rewrite Hrun. }
  simpl. intros row c Hrow Hc. split.
  { destruct (row_fits row Hrow) as [Hlisted _].
    apply name_listed_iff in Hlisted as (c' & Hc' & Hin).
    rewrite Hc in Hc'. by injection Hc' as <-. }
  destruct (last_occurrence
              (λ row', match row' !! name_col with
                       | Some c' => bool_decide (normalize c' = normalize c)
                       | None => false
                       end) (rows df))
    as (before & row1 & after & Hrows & Hrow1 & Hafter).
  { exists row. split; [done|]. rewrite Hc. by apply bool_decide_eq_true_2. }
  destruct (row1 !! name_col) as [c1|] eqn:Hc1; [|done].
  apply bool_decide_eq_true_1 in Hrow1.
  assert (row1 ∈ rows df) as Hin1.
  { rewrite Hrows. apply elem_of_app. right. by left. }
  rewrite Hrows in Hrun.
  destruct (last_row_entries literal_eval before after row1 c1 _ _ Hrun Hc1)
    as (inner & Hinner & Hnew).
  { intros row' c' Hrow' Hc' Heq. specialize (Hafter row' Hrow').
    rewrite Hc' in Hafter. apply bool_decide_eq_false_1 in Hafter.
    apply Hafter. by rewrite Heq. }
  rewrite Hrow1 in Hinner. exists inner. split; [done|].
  intros sh Hsh Hday. destruct (Hnew sh Hsh) as (v & Hv & Hlook).
  rewrite (missing_day_entry row1 sh Hin1 Hday) in Hv. by injection Hv as <-.
Qed.

End MissingColumn.

(** A table without a Tuesday column. *)
Lemma missing_day_column_means_unavailable_witness :
  (∀ row, row ∈ rows no_tuesday →
          row_get row "TUESDAY" = CStr ""
          ∧ _parse_ranges literal_eval (row_get row "TUESDAY") = Ok [])
  ∧ ∃ data, load_input_from_excel literal_eval no_tuesday = Ok data
      ∧ ∀ row c, row ∈ rows no_tuesday → row !! name_col = Some c →
          normalize c ∈ students data
          ∧ ∃ inner, availability_matrix data !! normalize c = Some inner
              ∧ ∀ sh, sh ∈ SHIFTS → day_of sh = "Tue"%string →
                      inner !! solver.shift_id sh = Some 0.
Proof.
  apply (missing_day_column_means_unavailable literal_eval no_tuesday "Tue" "TUESDAY").
  - reflexivity.
  - reflexivity.
  - reflexivity.
  - reflexivity.
  - unfold no_tuesday, name_col. simpl. set_solver.
  - by left.
Defined.

(** *** Ranges in the documented form *)

Lemma append_assoc (a b c : string) : ((a ++ b) ++ c = a ++ (b ++ c))%string.
Proof.
  induction a as [|x a IH]; [done|].
  change (String x ((a ++ b) ++ c) = String x (a ++ (b ++ c)))%string.
  by rewrite IH.
Qed.

Lemma split_dash_at_first (t rest : string) :
  no_dash t = true → Py.split_dash (t ++ String "-" rest)%string = Some (t, rest).
Proof.
  unfold no_dash. induction t as [|c t IH]; [done|].
  change (String c t ++ String "-" rest)%string
    with (String c (t ++ String "-" rest)%string).
  simpl. intros H. apply andb_true_iff in H as [Hc Ht].
  destruct (Ascii.eqb c "-"); [done|]. by rewrite (IH Ht).
Qed.

Lemma parse_items_single (out : list (Qc * Qc)) (r : string) (a b : Qc)
    (start_s end_s : string) :
  Py.split_dash r = Some (start_s, end_s) →
  _hhmm_to_float start_s = Ok a → _hhmm_to_float end_s = Ok b →
  parse_items out [Py.VStr r] = Ok (out ++ [(a, b)]).
Proof. intros Hr Ha Hb. simpl. by rewrite Hr, Ha, Hb. Qed.

Lemma every_time_ok (h m s : Z) :
  0 <= h <= 23 → 0 <= m <= 59 → 0 <= s <= 59 → time_ok h m s = true.
Proof.
  intros Hh Hm Hs.
  assert (forallb (λ h, forallb (λ m, forallb (λ s, time_ok h m s) (seqZ 0 60))
                                (seqZ 0 60)) (seqZ 0 24) = true) as Hall
    by (vm_compute; reflexivity).
  assert (∀ k n, 0 <= k <= n - 1 → In k (seqZ 0 n)) as Hin.
  { intros k n Hk. apply list_elem_of_In, elem_of_seqZ. lia. }
  rewrite forallb_forall in Hall. specialize (Hall h (Hin h 24 Hh)).
  rewrite forallb_forall in Hall. specialize (Hall m (Hin m 60 Hm)).
  rewrite forallb_forall in Hall. exact (Hall s (Hin s 60 Hs)).
Qed.

(** X19.  A cell whose list holds one range written in the documented
    form "HH:MM:SS - HH:MM:SS", with hours from 00 to 23 and minutes
    and seconds from 00 to 59, parses to the one interval from the first
    time to the second, each read as hour + minute / 60 whatever its
    seconds. *)
Theorem documented_range_parses
    (literal_eval : string -> option Py.value) (text : string)
    (h1 m1 s1 h2 m2 s2 : Z) :
  literal_eval text = Some (Py.VList [Py.VStr (range_text h1 m1 s1 h2 m2 s2)]) →
  0 <= h1 <= 23 ∧ 0 <= m1 <= 59 ∧ 0 <= s1 <= 59 →
  0 <= h2 <= 23 ∧ 0 <= m2 <= 59 ∧ 0 <= s2 <= 59 →
  _parse_ranges literal_eval (CStr text) = Ok [(clock h1 m1, clock h2 m2)].
Proof.
  intros Htext (Hh1 & Hm1 & Hs1) (Hh2 & Hm2 & Hs2).
  pose proof (every_time_ok h1 m1 s1 Hh1 Hm1 Hs1) as H1.
  pose proof (every_time_ok h2 m2 s2 Hh2 Hm2 Hs2) as H2.
  unfold time_ok in H1, H2.
  apply andb_true_iff in H1 as [H1 Hdash]. apply andb_true_iff in H1 as [H1 _].
  apply andb_true_iff in H2 as [H2 _]. apply andb_true_iff in H2 as [_ H2].
  unfold reads_as in H1, H2.
  destruct (_hhmm_to_float (hhmmss h1 m1 s1 ++ " ")) as [q1|] eqn:Hq1; [|done].
  destruct (_hhmm_to_float (" " ++ hhmmss h2 m2 s2)) as [q2|] eqn:Hq2; [|done].
  apply bool_decide_eq_true_1 in H1. apply bool_decide_eq_true_1 in H2. subst q1 q2.
  unfold _parse_ranges. rewrite Htext.
  change (parse_items [] [Py.VStr (range_text h1 m1 s1 h2 m2 s2)]
          = Ok [(clock h1 m1, clock h2 m2)]).
  apply (parse_items_single [] _ _ _ (hhmmss h1 m1 s1 ++ " ") (" " ++ hhmmss h2 m2 s2));
    [|done..].
  unfold range_text.
  change (hhmmss h1 m1 s1 ++ " - " ++ hhmmss h2 m2 s2)%string
    with (hhmmss h1 m1 s1 ++ (" " ++ String "-" (" " ++ hhmmss h2 m2 s2)))%string.
  rewrite <- append_assoc. by apply split_dash_at_first.
Qed.

(** "07:15:00 - 09:00:00" is the interval from 7.25 to 9. *)
Lemma documented_range_parses_witness :
  _parse_ranges literal_eval (CStr "['07:15:00 - 09:00:00']")
  = Ok [(clock 7 15, clock 9 0)].
Proof.
  apply (documented_range_parses literal_eval "['07:15:00 - 09:00:00']" 7 15 0 9 0 0).
  - reflexivity.
  - lia.
  - lia.
Defined.

End IngestMore.


(** * Further properties of the model *)

Module ModelMore.

Import AvailMatrBuilder solver Aux More IngestProps ModelProps IngestMore.

(** *** Lengths in ticks *)

Lemma round_integer (n : Z) : round (Q2Qc (inject_Z n)) = n.
Proof.
  unfold round.
  assert (Qfloor (Q2Qc (inject_Z n)) = n) as Hfloor.
  { simpl. rewrite (Qfloor_comp _ _ (Qred_correct (inject_Z n))). apply Qfloor_Z. }
  rewrite Hfloor.
  assert ((Q2Qc (inject_Z n) - Q2Qc (inject_Z n))%Qc = Q2Qc 0) as ->.
  { unfold Qcminus. apply Qcplus_opp_r. }
  done.
Qed.

(** X12.  A shift whose length is a whole number of quarter hours has
    exactly that number as its scaled length: on the quarter-hour grid
    the rounding in [shift_lengths] changes nothing. *)
Theorem scaled_length_exact_on_quarter_hours (d : string) (start end_ : Qc) (n : Z) :
  ((end_ - start) * Q2Qc (inject_Z SCALE))%Qc = Q2Qc (inject_Z n) →
  scaled_length (d, start, end_) = n.
Proof. intros Hn. unfold scaled_length. rewrite Hn. apply round_integer. Qed.

Lemma scaled_length_exact_on_quarter_hours_witness :
  scaled_length ("Mon"%string, hours 29 4, hours 9 1) = 7.
Proof.
  apply (scaled_length_exact_on_quarter_hours "Mon" (hours 29 4) (hours 9 1) 7).
  apply Qc_is_canon. reflexivity.
Defined.

(** *** The assignment variables *)

Lemma new_x_fresh (sid : ShiftId) (st : gmap (ShiftId * string) IntVar * CpModel)
    (s : string) :
  fresh_vars st → fresh_vars (new_x sid st s).
Proof.
  intros [Hlt Hinj]. unfold new_x, NewBoolVar, NewIntVar, fresh_vars. simpl.
  rewrite length_app. simpl. split.
  - intros k v. destruct (decide (k = (sid, s))) as [->|Hne].
    + rewrite lookup_insert_eq. intros [= <-]. lia.
    + rewrite lookup_insert_ne by done. intros Hk. apply Hlt in Hk. lia.
  - intros k1 k2 v.
    destruct (decide (k1 = (sid, s))) as [->|Hne1];
      destruct (decide (k2 = (sid, s))) as [->|Hne2]; try done.
    + rewrite lookup_insert_eq, lookup_insert_ne by done.
      intros [= <-] Hk2. apply Hlt in Hk2. lia.
    + rewrite lookup_insert_eq, lookup_insert_ne by done.
      intros Hk1 [= <-]. apply Hlt in Hk1. lia.
    + rewrite !lookup_insert_ne by done. apply Hinj.
Qed.

Lemma decision_vars_fresh (students : list string) (shifts : list Shift) (m : CpModel) :
  fresh_vars (decision_vars students shifts m).
Proof.
  unfold decision_vars.
  assert (fresh_vars (∅, m)) as Hinit.
  { split; intros *; simpl; by rewrite lookup_empty. }
  revert Hinit. generalize (∅ : gmap (ShiftId * string) IntVar, m).
  induction shifts as [|sh shifts IH]; intros st Hst; [done|].
  simpl. apply IH. clear IH. revert st Hst.
  induction students as [|s students IH]; intros st Hst; [done|].
  simpl. apply IH. by apply new_x_fresh.
Qed.

(** X13.  No two (shift, person) pairs share an assignment variable,
    and an assignment variable is one of the first |shifts| x |people|
    variables of the model, so it is never a load variable, [max_h] or
    [min_h]. *)
Theorem assignment_variables_are_distinct
    (students : list string) (availability_matrix : gmap string (gmap ShiftId Z))
    (shifts : list Shift) :
  (∀ k1 k2 v, x (build students availability_matrix shifts) !! k1 = Some v →
              x (build students availability_matrix shifts) !! k2 = Some v → k1 = k2)
  ∧ (∀ k v, x (build students availability_matrix shifts) !! k = Some v →
            (v < length shifts * length students)%nat
            ∧ v ≠ max_h (build students availability_matrix shifts)
            ∧ v ≠ min_h (build students availability_matrix shifts)
            ∧ ∀ s n, (s, n) ∈ total_hours (build students availability_matrix shifts) →
                     v ≠ n).
Proof.
  destruct (build_spec students availability_matrix shifts)
    as (Hx & Hvars & Hmax & Hmin & _ & _ & _ & Hdom & _).
  destruct (decision_vars_fresh students shifts empty_model) as [Hlt Hinj].
  destruct (decision_vars_spec students shifts empty_model) as (Hbool & _ & Hv & _).
  rewrite Hx. split; [exact Hinj|]. intros k v Hk.
  pose proof (Hlt k v Hk) as Hv'. rewrite Hv in Hv'. simpl in Hv'.
  rewrite length_replicate in Hv'.
  split; [done|]. split; [lia|]. split; [lia|].
  intros s n Hn ->. apply Hdom in Hn. rewrite Hvars in Hn.
  rewrite lookup_app_l in Hn by (by rewrite length_replicate).
  apply lookup_replicate in Hn as [[=] _].
Qed.

(** *** Solutions *)

Lemma length_filter_le {A : Type} (P Q : A → Prop)
    `{∀ a, Decision (P a)} `{∀ a, Decision (Q a)} (l : list A) :
  (∀ a, a ∈ l → P a → Q a) → (length (filter P l) <= length (filter Q l))%nat.
Proof.
  induction l as [|a l IH]; intros HPQ; [done|].
  rewrite !filter_cons.
  assert (length (filter P l) <= length (filter Q l))%nat as Hl.
  { apply IH. intros a' Ha'. apply HPQ. by right. }
  destruct (decide (P a)) as [HP|HP].
  - rewrite decide_True by (apply HPQ; [by left|done]). simpl. lia.
  - destruct (decide (Q a)); simpl; lia.
Qed.

Section MoreSolutions.

Variable students : list string.
Variable availability_matrix : gmap string (gmap ShiftId Z).
Variable shifts : list Shift.
Variable val : IntVar → Z.

Local Abbreviation b := (build students availability_matrix shifts).
Local Abbreviation cap := (MAX_WEEKLY_HOURS * SCALE).

Hypothesis solution : feasible val (model b).

Lemma unavailable_is_zero (sh : Shift) (s : string) :
  sh ∈ shifts → s ∈ students → avail availability_matrix s (shift_id sh) = 0 →
  val (x b !!! (shift_id sh, s)) = 0.
Proof.
  intros Hsh Hs Hav.
  pose proof (feasible_holds _ _ _ solution
                (forced_zero_in_model students availability_matrix shifts
                   sh s Hsh Hs Hav)) as Hzero.
  exact Hzero.
Qed.

(** X14.  A person with no availability for any shift is never listed
    for a shift, and works 0 ticks: the load and the load variable are
    both 0. *)
Theorem unavailable_person_is_never_assigned (s : string) :
  s ∈ students →
  (∀ sh, sh ∈ shifts → avail availability_matrix s (shift_id sh) = 0) →
  (∀ sh, sh ∈ shifts → s ∉ assigned students (x b) val sh)
  ∧ scaled_load shifts (x b) val s = 0
  ∧ val (dict_get 0%nat s (total_hours b)) = 0.
Proof.
  intros Hs Hnone.
  assert (scaled_load shifts (x b) val s = 0) as Hload.
  { unfold scaled_load. rewrite <- (Zsum_zero shifts). apply Zsum_ext.
    intros sh Hsh. rewrite unavailable_is_zero; [lia|done..|by apply Hnone]. }
  split; [|split; [done|]].
  - intros sh Hsh Hin. unfold assigned in Hin.
    apply list_elem_of_filter in Hin as [Hone _].
    rewrite unavailable_is_zero in Hone; [done..|by apply Hnone].
  - by rewrite (load_variable_is_load students availability_matrix shifts val s).
Qed.

(** X15.  Everyone listed for a shift is available for it, so in a
    solution the headcount of a shift is at least 0 and at most the
    number of people available for the shift: a shift that asks for
    more people than are free makes the model infeasible. *)
Theorem headcount_at_most_available (sh : Shift) :
  sh ∈ shifts →
  (∀ s, s ∈ assigned students (x b) val sh →
        s ∈ available students availability_matrix sh)
  ∧ 0 <= required sh
       <= Z.of_nat (length (available students availability_matrix sh)).
Proof.
  intros Hsh.
  assert (∀ s, s ∈ students → val (x b !!! (shift_id sh, s)) = 1 →
               avail availability_matrix s (shift_id sh) ≠ 0) as Hav.
  { intros s Hs Hone Hzero. rewrite unavailable_is_zero in Hone; done. }
  split.
  - intros s Hin. unfold assigned in Hin. apply list_elem_of_filter in Hin as [Hone Hs].
    unfold available. apply list_elem_of_filter. split; [by apply Hav|done].
  - rewrite <- (headcount_met students availability_matrix shifts val sh solution Hsh).
    split; [lia|]. apply inj_le. unfold assigned, available.
    by apply length_filter_le.
Qed.

(** X16.  In a solution the ticks worked add up to the ticks asked
    for: the sum over the people of their loads, and of their load
    variables, equals the sum over the shifts of headcount times scaled
    length. *)
Theorem worked_ticks_equal_required_ticks :
  Zsum ((λ s, scaled_load shifts (x b) val s) <$> students) = required_ticks shifts
  ∧ Zsum ((λ s, val (dict_get 0%nat s (total_hours b))) <$> students)
    = required_ticks shifts.
Proof.
  pose proof (required_ticks_are_worked students availability_matrix shifts val
                solution) as Hsum.
  split; [done|]. rewrite Hsum. apply Zsum_ext.
  intros s Hs. by apply load_variable_is_load.
Qed.

(** X17.  In a solution the fairness gap [max_h - min_h] lies between 0
    and the weekly cap in ticks, and it bounds the difference between
    the loads of any two people. *)
Theorem fairness_gap_bounds :
  0 <= val (max_h b) - val (min_h b) <= cap
  ∧ ∀ s1 s2, s1 ∈ students → s2 ∈ students →
             scaled_load shifts (x b) val s1 - scaled_load shifts (x b) val s2
             <= val (max_h b) - val (min_h b).
Proof.
  destruct (build_spec students availability_matrix shifts)
    as (_ & _ & _ & _ & _ & _ & Hkeys & Hdom & _).
  destruct (max_min_in_model students availability_matrix shifts) as [Hmax Hmin].
  pose proof (feasible_holds _ _ _ solution Hmax) as [Hmax_in Hmax_ge].
  pose proof (feasible_holds _ _ _ solution Hmin) as [Hmin_in Hmin_le].
  assert (∀ v, v ∈ (total_hours b).*2 →
               0 <= val v <= cap ∧ val (min_h b) <= val v <= val (max_h b)) as Hv.
  { intros v Hin. split.
    - apply list_elem_of_fmap in Hin as ([s n] & -> & Hin).
      destruct solution as [Hbounds _]. by apply Hbounds, (Hdom s).
    - split.
      + by apply (proj1 (list.Forall_forall _ _) Hmin_le).
      + by apply (proj1 (list.Forall_forall _ _) Hmax_ge). }
  split.
  - apply list_elem_of_fmap in Hmax_in as (v1 & Heq1 & Hv1).
    apply list_elem_of_fmap in Hmin_in as (v2 & Heq2 & Hv2).
    destruct (Hv v1 Hv1) as [Hb1 Hr1]. destruct (Hv v2 Hv2) as [Hb2 Hr2]. lia.
  - intros s1 s2 Hs1 Hs2.
    rewrite <- !(load_variable_is_load students availability_matrix shifts val)
      by done.
    assert (∀ s, s ∈ students → dict_get 0%nat s (total_hours b) ∈ (total_hours b).*2)
      as Hin.
    { intros s Hs. apply list_elem_of_fmap. eexists (s, _). split; [done|].
      by apply dict_key_elem, Hkeys. }
    destruct (Hv _ (Hin s1 Hs1)) as [_ Hr1]. destruct (Hv _ (Hin s2 Hs2)) as [_ Hr2].
    lia.
Qed.

End MoreSolutions.

(** Ben, who has no availability entry, in the small instance. *)
Lemma unavailable_person_is_never_assigned_witness :
  (∀ sh, sh ∈ [early_shift] →
         "Ben"%string ∉ assigned two_people
                          (x (build two_people ana_free [early_shift])) ana_works sh)
  ∧ scaled_load [early_shift] (x (build two_people ana_free [early_shift]))
                ana_works "Ben" = 0
  ∧ ana_works (dict_get 0%nat "Ben"%string
                 (total_hours (build two_people ana_free [early_shift]))) = 0.
Proof.
  apply (unavailable_person_is_never_assigned two_people ana_free [early_shift]
           ana_works).
  - apply feasibleb_sound. reflexivity.
  - right. by left.
  - intros sh Hsh. apply list_elem_of_singleton in Hsh as ->. reflexivity.
Defined.

(** The early shift of the small instance asks for one person and Ana
    is free. *)
Lemma headcount_at_most_available_witness :
  (∀ s, s ∈ assigned two_people (x (build two_people ana_free [early_shift]))
                     ana_works early_shift →
        s ∈ available two_people ana_free early_shift)
  ∧ 0 <= required early_shift
       <= Z.of_nat (length (available two_people ana_free early_shift)).
Proof.
  apply (headcount_at_most_available two_people ana_free [early_shift] ana_works).
  - apply feasibleb_sound. reflexivity.
  - by left.
Defined.

(** The seven ticks of the early shift are Ana's. *)
Lemma worked_ticks_equal_required_ticks_witness :
  Zsum ((λ s, scaled_load [early_shift] (x (build two_people ana_free [early_shift]))
                          ana_works s) <$> two_people)
  = required_ticks [early_shift]
  ∧ Zsum ((λ s, ana_works (dict_get 0%nat s
                             (total_hours (build two_people ana_free [early_shift]))))
            <$> two_people)
    = required_ticks [early_shift].
Proof.
  apply (worked_ticks_equal_required_ticks two_people ana_free [early_shift] ana_works).
  apply feasibleb_sound. reflexivity.
Defined.

(** The gap of the small instance is 7 ticks. *)
Lemma fairness_gap_bounds_witness :
  0 <= ana_works (max_h (build two_people ana_free [early_shift]))
       - ana_works (min_h (build two_people ana_free [early_shift]))
    <= MAX_WEEKLY_HOURS * SCALE
  ∧ ∀ s1 s2, s1 ∈ two_people → s2 ∈ two_people →
             scaled_load [early_shift] (x (build two_people ana_free [early_shift]))
                         ana_works s1
             - scaled_load [early_shift] (x (build two_people ana_free [early_shift]))
                           ana_works s2
             <= ana_works (max_h (build two_people ana_free [early_shift]))
                - ana_works (min_h (build two_people ana_free [early_shift])).
Proof.
  apply (fairness_gap_bounds two_people ana_free [early_shift] ana_works).
  apply feasibleb_sound. reflexivity.
Defined.

(** *** From the table to the roster *)

Lemma row_entry_one (literal_eval : string -> option Py.value)
    (row : gmap string cell) (sh : Shift) (v : Z) :
  row_entry literal_eval row sh = Ok v → v ≠ 0 →
  ∃ col parsed a b,
    DAY_ABBR_TO_COL (day_of sh) = Ok col
    ∧ _parse_ranges literal_eval (row_get row col) = Ok parsed
    ∧ (a, b) ∈ parsed
    ∧ (a <= (shift_id sh).1.2)%Qc ∧ ((shift_id sh).2 <= b)%Qc.
Proof.
  destruct sh as [[[[label d] start] end_] req]. unfold row_entry, day_of. simpl.
  intros H Hv. apply rbind_ok in H as (col & Hcol & H).
  apply rbind_ok in H as (parsed & Hparsed & [= <-]).
  destruct (is_available parsed start end_) eqn:Hav; [|done].
  apply is_available_iff in Hav as (a & b & Hin & Ha & Hb).
  by exists col, parsed, a, b.
Qed.

(** X18.  From the table to the roster: when the script has loaded the
    table and built its model, and the solver's values satisfy the
    model, a person is at work on a shift of the catalog only if the
    last row that carries the person's name declares, in the cell of
    the shift's day, one interval that contains the shift. *)
Theorem nobody_works_outside_declared_free_time
    (literal_eval : string -> option Py.value) (df : DataFrame) (built : Built)
    (val : IntVar → Z) (before after : list (gmap string cell))
    (row : gmap string cell) (c : cell) (sh : Shift) :
  script literal_eval df = Ok built →
  feasible val (model built) →
  rows df = before ++ row :: after →
  row !! name_col = Some c → c ≠ CNaN →
  (∀ row' c', row' ∈ after → row' !! name_col = Some c' →
              normalize c' ≠ normalize c) →
  sh ∈ SHIFTS →
  val (x built !!! (shift_id sh, normalize c)) = 1 →
  ∃ col parsed a b,
    DAY_ABBR_TO_COL (day_of sh) = Ok col
    ∧ _parse_ranges literal_eval (row_get row col) = Ok parsed
    ∧ (a, b) ∈ parsed
    ∧ (a <= (shift_id sh).1.2)%Qc ∧ ((shift_id sh).2 <= b)%Qc.
Proof.
  intros Hscript Hval Hrows Hc Hnan Hafter Hsh Hone.
  unfold script in Hscript. apply rbind_ok in Hscript as (data & Hload & [= <-]).
  destruct (load_ok_inv _ _ _ Hload) as (_ & Hst & Hshifts & Hrun).
  rewrite Hst, Hshifts in *.
  assert (normalize c ∈ student_list df) as Hin.
  { destruct (rows_ran_through _ _ _ _ Hrun row) as [Hname _].
    - rewrite Hrows. apply elem_of_app. right. by left.
    - apply name_listed_iff in Hname as (c' & Hc' & Hin).
      rewrite Hc in Hc'. by injection Hc' as <-. }
  rewrite Hrows in Hrun.
  destruct (last_row_entries literal_eval before after row c _ _ Hrun Hc Hafter)
    as (inner & Hinner & Hnew).
  destruct (Hnew sh Hsh) as (v & Hv & Hlook).
  apply (row_entry_one literal_eval row sh v Hv).
  intros ->.
  rewrite (unavailable_is_zero _ _ _ _ Hval sh (normalize c) Hsh Hin) in Hone; [done|].
  unfold avail. rewrite Hinner. simpl. by rewrite Hlook.
Qed.

(** Nia, the last of fourteen people free all week, is rostered on
    Monday's 15:00 to 17:00 shift. *)
Lemma nobody_works_outside_declared_free_time_witness :
  ∃ col parsed a b,
    DAY_ABBR_TO_COL (day_of ("S4"%string, "Mon"%string, hours 15 1, hours 17 1, 4))
    = Ok col
    ∧ _parse_ranges literal_eval (row_get (free_all_week "Nia") col) = Ok parsed
    ∧ (a, b) ∈ parsed
    ∧ (a <= hours 15 1)%Qc ∧ (hours 17 1 <= b)%Qc.
Proof.
  assert (feasibleb fourteen_people_roster (model fourteen_people_built) = true) as Hf
    by (vm_compute; reflexivity).
  assert (fourteen_people_roster
            (x fourteen_people_built
               !!! (shift_id ("S4"%string, "Mon"%string, hours 15 1, hours 17 1, 4),
                    normalize (CStr "Nia"))) = 1) as Hone
    by (vm_compute; reflexivity).
  unfold fourteen_people_built in Hf, Hone.
  destruct (script literal_eval fourteen_people) as [built|e] eqn:Hscript;
    [|discriminate Hf].
  apply (nobody_works_outside_declared_free_time literal_eval fourteen_people built
           fourteen_people_roster
           (free_all_week <$> ["Ann"; "Ben"; "Cal"; "Dee"; "Eli"; "Fay"; "Gus"; "Hal";
                               "Ida"; "Jon"; "Kim"; "Lee"; "Max"]%string)
           [] (free_all_week "Nia") (CStr "Nia")
           ("S4"%string, "Mon"%string, hours 15 1, hours 17 1, 4)).
  - exact Hscript.
  - by apply feasibleb_sound.
  - reflexivity.
  - reflexivity.
  - discriminate.
  - intros row' c' Hrow'. destruct (proj1 (elem_of_nil row') Hrow').
  - do 3 right. by left.
  - exact Hone.
Defined.

(** *** The shape of the model *)

(** X20.  The model has one variable per (shift, person) pair, one per
    person and two more, and every constraint in it is a coverage
    equality of a shift, the zero of an unavailable pair, the weekly
    limit of a person, the definition of a person's load, or the
    max-equality or min-equality of the loads.  With the daily policies
    switched off, as the configuration has them, it holds no per-day
    limit. *)
Theorem model_holds_only_these_constraints
    (students : list string) (availability_matrix : gmap string (gmap ShiftId Z))
    (shifts : list Shift) :
  let b := build students availability_matrix shifts in
  length (variables (model b))
  = (length shifts * length students + length students + 2)%nat
  ∧ ∀ c, c ∈ constraints (model b) →
      (∃ sh, sh ∈ shifts
             ∧ c = Eq (sum ((λ s, X (x b) (shift_id sh) s) <$> students))
                      (Const (required sh)))
      ∨ (∃ sh s, sh ∈ shifts ∧ s ∈ students
                 ∧ avail availability_matrix s (shift_id sh) = 0
                 ∧ c = Eq (X (x b) (shift_id sh) s) (Const 0))
      ∨ (∃ s, s ∈ students
              ∧ c = Le (total_hours_scaled shifts (x b) s)
                       (Const (MAX_WEEKLY_HOURS * SCALE)))
      ∨ (∃ s, s ∈ students
              ∧ c = Eq (Var (dict_get 0%nat s (total_hours b)))
                       (total_hours_scaled shifts (x b) s))
      ∨ c = MaxEquality (max_h b) (total_hours b).*2
      ∨ c = MinEquality (min_h b) (total_hours b).*2.
Proof.
  intros b.
  destruct (build_spec students availability_matrix shifts)
    as (_ & Hvars & _ & _ & _ & _ & _ & _ & av & Hcs & _ & Hav).
  split.
  - subst b. rewrite Hvars, !length_app, !length_replicate. simpl. lia.
  - intros c Hc. subst b. rewrite Hcs in Hc.
    apply elem_of_app in Hc as [Hc|Hc].
    { left. apply list_elem_of_fmap in Hc as (sh & -> & Hsh). by exists sh. }
    apply elem_of_app in Hc as [Hc|Hc].
    { right. left. by apply Hav. }
    apply elem_of_app in Hc as [Hc|Hc].
    { right. right. left. apply list_elem_of_fmap in Hc as (s & -> & Hs). by exists s. }
    apply elem_of_app in Hc as [Hc|Hc].
    { do 3 right. left. apply list_elem_of_fmap in Hc as (s & -> & Hs). by exists s. }
    apply elem_of_cons in Hc as [->|Hc]; [do 4 right; by left|].
    apply list_elem_of_singleton in Hc as ->. by do 5 right.
Qed.

End ModelMore.
